(** * NovaPlan roadmap generator: skill resolution, career matching and
      roadmap synthesis

    A shallow embedding of [generator.py] and [generator_core.py] of the
    roadmap generator, with the properties of its specification stated and
    settled over the embedding.

    Conventions of the embedding:
    - Python [str] is [string]; [lower], [upper], [title] and [strip] act on
      the ASCII letters and white space and leave every other byte alone.
    - Python [float] scores and similarities are exact rationals ([Q]); the
      rounding of IEEE doubles is not modelled.
    - a [dict] read with [.get(key, default)] is a record whose optional keys
      are [option] fields.
    - [random.sample] draws from an explicit generator state that is threaded
      through the synthesizer.
    - a raised exception is the [Raise] case of a result type.
    - the semantic index, the fuzzy scorer, the renderer and the file system
      are collaborators outside the repository's logic: they are section
      variables. *)

From Stdlib Require Import QArith Ascii DecimalString.
From stdpp Require Import gmap strings list sets.

Local Open Scope nat_scope.

(* ===================================================================== *)
(** ** Python strings *)
(* ===================================================================== *)

Module PyStr.

Definition is_upper (c : ascii) : bool :=
  let n := nat_of_ascii c in (65 <=? n) && (n <=? 90).

Definition is_lower (c : ascii) : bool :=
  let n := nat_of_ascii c in (97 <=? n) && (n <=? 122).

Definition is_cased (c : ascii) : bool := is_upper c || is_lower c.

Definition to_lower (c : ascii) : ascii :=
  if is_upper c then ascii_of_nat (nat_of_ascii c + 32) else c.

Definition to_upper (c : ascii) : ascii :=
  if is_lower c then ascii_of_nat (nat_of_ascii c - 32) else c.

Fixpoint map (f : ascii -> ascii) (s : string) : string :=
  match s with
  | EmptyString => EmptyString
  | String c s' => String (f c) (map f s')
  end.

(** [s.lower()] and [s.upper()] *)
Definition lower (s : string) : string := map to_lower s.
Definition upper (s : string) : string := map to_upper s.

(** [s.title()]: a cased character is upper-cased when the character before
    it is not cased, and lower-cased otherwise. *)
Fixpoint title_from (prev_cased : bool) (s : string) : string :=
  match s with
  | EmptyString => EmptyString
  | String c s' =>
      if is_cased c
      then String (if prev_cased then to_lower c else to_upper c)
                  (title_from true s')
      else String c (title_from false s')
  end.

Definition title (s : string) : string := title_from false s.

(** White space as [str.isspace] sees it below code point 128. *)
Definition is_space (c : ascii) : bool :=
  let n := nat_of_ascii c in
  ((9 <=? n) && (n <=? 13)) || ((28 <=? n) && (n <=? 32)).

Fixpoint lstrip (s : string) : string :=
  match s with
  | EmptyString => EmptyString
  | String c s' => if is_space c then lstrip s' else s
  end.

Fixpoint rstrip (s : string) : string :=
  match s with
  | EmptyString => EmptyString
  | String c s' =>
      match rstrip s' with
      | EmptyString => if is_space c then EmptyString else String c EmptyString
      | r => String c r
      end
  end.

(** [s.strip()] *)
Definition strip (s : string) : string := rstrip (lstrip s).

(** [needle in hay] *)
Fixpoint contains (needle hay : string) : bool :=
  String.prefix needle hay ||
  match hay with
  | EmptyString => false
  | String _ hay' => contains needle hay'
  end.

(** [sep.join(l)] *)
Fixpoint join (sep : string) (l : list string) : string :=
  match l with
  | [] => ""
  | [x] => x
  | x :: l' => x +:+ sep +:+ join sep l'
  end.

(** [str(n)] for a natural number *)
Definition str_of_nat (n : nat) : string :=
  NilEmpty.string_of_uint (Nat.to_uint n).

End PyStr.

(* ===================================================================== *)
(** ** The random source *)
(* ===================================================================== *)

(** The state of Python's global generator: the raw draws still to come.
    An exhausted state keeps drawing 0. *)
Definition Rng : Type := list nat.

(** A computation that may draw from the generator. *)
Definition Rand (A : Type) : Type := Rng -> A * Rng.

Definition ret {A : Type} (a : A) : Rand A := fun g => (a, g).

Definition bind {A B : Type} (m : Rand A) (k : A -> Rand B) : Rand B :=
  fun g => let (a, g') := m g in k a g'.

Notation "x <~ m ;; k" := (bind m (fun x => k))
  (at level 100, m at next level, right associativity).

(** A uniform index below [n]. *)
Definition randbelow (n : nat) : Rand nat :=
  fun g => match g with
           | [] => (0, [])
           | d :: g' => (d mod n, g')
           end.

(** [random.sample(pool, k)] for [k <= len(pool)]: [k] draws without
    replacement, in the order drawn. *)
Fixpoint random_sample (pool : list string) (k : nat) : Rand (list string) :=
  match k with
  | 0 => ret []
  | S k' =>
      j <~ randbelow (length pool) ;;
      match pool !! j with
      | None => ret []
      | Some x =>
          rest <~ random_sample (delete j pool) k' ;;
          ret (x :: rest)
      end
  end.

(* ===================================================================== *)
(** ** generator_core.py: data *)
(* ===================================================================== *)

(** [@dataclass RoadmapStep] *)
#[local] Set Warnings "-register-all".
Inductive RoadmapStep : Type := Build_RoadmapStep {
  title : string;
  objective : string;
  duration_months : nat;
  prerequisites : list string;
  milestones : list string;
  resources : list string;
  tasks : list string;
  children : list RoadmapStep
}.

(** [@dataclass Roadmap] *)
Record Roadmap : Type := Build_Roadmap {
  path_title : string;
  focus : string;
  confidence_score : Q;
  steps : list RoadmapStep
}.

(** An entry of the career dataset: a JSON object, every key optional. *)
Record Career : Type := Build_Career {
  c_career : option string;
  c_label : option string;
  c_skills : option (list string);
  c_tasks : option (list string);
  c_education : option (list string);
  c_description : option string
}.

(** [d.get(key, dflt)] *)
Definition get {A : Type} (field : option A) (dflt : A) : A := default dflt field.

(** [step.duration_months += 1] *)
Definition add_month (s : RoadmapStep) : RoadmapStep :=
  Build_RoadmapStep (title s) (objective s) (duration_months s + 1)
    (prerequisites s) (milestones s) (resources s) (tasks s) (children s).

(* ===================================================================== *)
(** ** generator_core.py: generate_steps_for_career *)
(* ===================================================================== *)

Section StepGenerator.

Variable career : Career.
Variable profile_skills : list string.

Definition known : list string :=
  filter (fun s => s ∈ profile_skills) (map PyStr.lower (get (c_skills career) [])).

Definition missing : list string :=
  filter (fun s => s ∉ profile_skills) (map PyStr.lower (get (c_skills career) [])).

Definition make_step (title objective : string) (months : nat)
    (prereq milestones resources : list string)
    (tasks : option (list string)) (children : option (list RoadmapStep))
    : RoadmapStep :=
  Build_RoadmapStep title objective months prereq milestones resources
    (get tasks []) (get children []).

Definition career_tasks : list string := get (c_tasks career) [].
Definition career_name : string := get (c_career career) "Career".

Definition get_tasks (count : nat) (fallback_prefix : string) : Rand (list string) :=
  match career_tasks with
  | _ :: _ => random_sample career_tasks (min (length career_tasks) count)
  | [] => ret (map (fun i => fallback_prefix +:+ " " +:+ PyStr.str_of_nat (i + 1))
                   (seq 0 count))
  end.

Definition skills_to_learn : list string :=
  match missing with
  | _ :: _ => take 4 missing
  | [] => take 4 (get (c_skills career) [])
  end.

Definition core_child (i : nat) (sk : string) : RoadmapStep :=
  let related_tasks :=
    filter (fun t => PyStr.contains (PyStr.lower sk) (PyStr.lower t)) career_tasks in
  let step_tasks :=
    match related_tasks with
    | _ :: _ => take 3 related_tasks
    | [] => ["Practice " +:+ sk +:+ " fundamentals";
             "Apply " +:+ sk +:+ " in small scenarios"]
    end in
  make_step
    (PyStr.title sk +:+ " Proficiency")
    ("Develop proficiency in " +:+ sk)
    2
    (if decide (i = 0) then take 2 known else [])
    ["Complete " +:+ sk +:+ " course"; "Demonstrate " +:+ sk +:+ " usage";
     "Pass " +:+ sk +:+ " quiz"]
    [PyStr.title sk +:+ " Resources"]
    (Some step_tasks)
    None.

Definition foundations_children (beginner : bool) : Rand (list RoadmapStep) :=
  if beginner then
    fundamentals_tasks <~ get_tasks 5 "Study fundamental concept" ;;
    ret [ make_step
            "Industry Fundamentals"
            ("Understand the core concepts of " +:+ career_name)
            1
            []
            ["Complete introductory course"; "Learn industry terminology";
             "Understand role responsibilities"]
            ["Online Courses"; "Industry Glossaries"; "Career Guides"]
            (Some fundamentals_tasks)
            None;
          make_step
            "Tools & Environment"
            "Set up your professional workspace"
            1
            []
            ["Install necessary software";
             "Configure development/work environment";
             "Join professional communities"]
            ["Official Documentation"; "Community Forums"]
            (Some ["Research standard tools for " +:+ career_name;
                   "Install primary software tools";
                   "Create account on professional networks"])
            None ]
  else ret [].

Definition foundations_step (beginner : bool) (kids : list RoadmapStep) : RoadmapStep :=
  make_step
    "Foundations"
    "Build essential groundwork for your career"
    (if beginner then 1 else 0)
    []
    ["Complete foundation modules"; "Set up workspace"]
    ["Standard Industry Tools"]
    (Some ["Set up your learning workspace"; "Create a study schedule";
           "Join relevant online communities"])
    (Some kids).

Definition core_children : list RoadmapStep := imap core_child skills_to_learn.

Definition core_step : RoadmapStep :=
  make_step
    "Core Skills Development"
    ("Master essential skills for " +:+ career_name)
    (max 2 (length core_children))
    known
    ["Complete all core skill modules"; "Pass skill assessments"]
    ["Online Learning Platforms"]
    (Some ["Create a skills tracking spreadsheet"; "Set up practice projects";
           "Find a mentor"])
    (Some core_children).

Definition project_children : Rand (list RoadmapStep) :=
  proj1_tasks <~ get_tasks 4 "Implement basic feature" ;;
  proj2_tasks <~ get_tasks 5 "Implement advanced feature" ;;
  ret [ make_step
          "Applied Practice Project"
          "Apply core skills in a realistic scenario"
          2
          (known ++ take 2 missing)
          ["Design project scope"; "Implement core features"; "Document results"]
          ["Project Management Tools"; "Documentation Tools"]
          (Some (["Select a real-world problem to solve"; "Plan the solution"]
                 ++ proj1_tasks))
          None;
        make_step
          "Advanced Capstone"
          "Demonstrate comprehensive mastery"
          2
          (known ++ take 3 missing)
          ["Complete complex project"; "Peer review"; "Final presentation"]
          ["Advanced Tools"]
          (Some (["Define advanced project requirements"] ++ proj2_tasks))
          None ].

Definition project_step (kids : list RoadmapStep) : RoadmapStep :=
  make_step
    "Practical Application"
    "Gain hands-on experience through projects or simulations"
    (length kids)
    known
    ["Complete 2 major projects"; "Build portfolio"]
    ["Portfolio Platform"]
    (Some ["Research industry standard projects"; "Document process and outcomes"])
    (Some kids).

Definition spec_children : Rand (list RoadmapStep) :=
  spec_tasks <~ get_tasks 4 "Study advanced topic" ;;
  ret [ make_step
          "Specialization Track"
          "Deep dive into a specific area"
          2
          (known ++ take 2 missing)
          ["Complete specialization course"; "Advanced certification";
           "Master advanced concepts"]
          ["Specialized Training"]
          (Some spec_tasks)
          None ].

Definition spec_step (kids : list RoadmapStep) : RoadmapStep :=
  make_step
    "Specialization"
    "Develop expertise in specific areas"
    2
    []
    ["Choose specialization"; "Achieve advanced competency"]
    ["Industry Certifications"]
    (Some ["Research trending specializations in " +:+ career_name;
           "Select a niche"])
    (Some kids).

Definition job_children : list RoadmapStep :=
  [ make_step
      "Professional Branding"
      "Create compelling professional presence"
      1
      []
      ["Update resume"; "Optimize professional profile"; "Build portfolio"]
      ["LinkedIn"; "Resume Builder"]
      (Some ["Tailor resume for " +:+ career_name;
             "Highlight key skills: " +:+ PyStr.join ", " (take 3 skills_to_learn)])
      None;
    make_step
      "Job Search Strategy"
      "Execute systematic job search"
      1
      []
      ["Apply to positions"; "Network"; "Interview prep"]
      ["Job Boards"; "Networking Events"]
      (Some ["Identify top companies for " +:+ career_name;
             "Prepare for interviews"])
      None ].

Definition job_step : RoadmapStep :=
  make_step
    "Career Launch"
    "Land your first role in the field"
    (length job_children)
    []
    ["Complete branding"; "Secure job offer"]
    ["Job Search Platforms"]
    (Some ["Develop job search strategy"; "Practice interview questions"])
    (Some job_children).

Definition generate_steps_for_career (focus : string) (beginner : bool)
    : Rand (list RoadmapStep) :=
  (* 1. Foundations *)
  f_kids <~ foundations_children beginner ;;
  let foundations := foundations_step beginner f_kids in
  (* 2. Core Skills *)
  let core := core_step in
  (* 3. Practical Application *)
  p_kids <~ project_children ;;
  let project := project_step p_kids in
  (* 4. Specialization *)
  s_kids <~ spec_children ;;
  let spec := spec_step s_kids in
  (* 5. Career Launch *)
  let job := job_step in
  (* Tailor for focus *)
  let '(core, project, job) :=
    if String.eqb focus "Depth" then (add_month core, project, job)
    else if String.eqb focus "Fast-Entry" then (core, add_month project, job)
    else if String.eqb focus "Transition" then (core, project, add_month job)
    else (core, project, job) in
  ret [foundations; core; project; spec; job].

End StepGenerator.

(* ===================================================================== *)
(** ** generator_core.py: generate_distinct_roadmaps *)
(* ===================================================================== *)

(** The request body: a JSON object, every key optional. An answer of the
    quiz is the value of its ['type'] key, when it has one. *)
Record UserInput : Type := Build_UserInput {
  u_skills : option (list string);
  u_answers : option (list (option string));
  u_education : option string;
  u_summary : option string
}.

(** [x or y] on strings: the empty string is falsy, and so is a missing key. *)
Definition str_or (x : option string) (y : string) : string :=
  match x with
  | Some (String c s) => String c s
  | _ => y
  end.

Definition focuses : list string := ["Depth"; "Fast-Entry"; "Transition"].

Fixpoint for_each {A B : Type} (f : A -> Rand B) (l : list A) : Rand (list B) :=
  match l with
  | [] => ret []
  | x :: l' =>
      y <~ f x ;;
      ys <~ for_each f l' ;;
      ret (y :: ys)
  end.

Definition generate_distinct_roadmaps (profile : UserInput) (top_career : Career)
    : Rand (list Roadmap) :=
  for_each
    (fun f =>
       steps <~ generate_steps_for_career top_career (get (u_skills profile) []) f true ;;
       ret (Build_Roadmap
              (str_or (c_career top_career) (get (c_label top_career) "Career"))
              f 0.8 steps))
    focuses.

Definition data_analyst : Career :=
  Build_Career (Some "Data Analyst")
    None
    (Some ["python"; "sql"; "data visualization"; "pandas"])
    None
    (Some ["bachelor's"])
    (Some "Analyze data.").

Definition frontend_developer : Career :=
  Build_Career (Some "Frontend Developer")
    None
    (Some ["javascript"; "react"; "html"; "css"])
    None
    (Some ["bootcamp"; "self-taught"])
    (Some "Build web UI.").

(* ===================================================================== *)
(** ** Exceptions, comparisons and the stable sort *)
(* ===================================================================== *)

Inductive exn : Type :=
| IndexError
| KeyError (key : string)
| CollaboratorError (what : string).

(** The outcome of a call that may raise. *)
Inductive Result (A : Type) : Type :=
| Ok (a : A)
| Raise (e : exn).

Arguments Ok {A} a.
Arguments Raise {A} e.

#[export] Instance Result_ret : MRet Result := fun _ a => Ok a.

#[export] Instance Result_bind : MBind Result :=
  fun _ _ k m => match m with
                 | Ok a => k a
                 | Raise e => Raise e
                 end.

(** [x < y] and [x > y] on scores and similarities *)
Definition Qltb (x y : Q) : bool := negb (Qle_bool y x).
Definition Qgtb (x y : Q) : bool := Qltb y x.

Section StableSort.

Context {A K : Type}.
Variable ltb : K -> K -> bool.
Variable key : A -> K.

(** [x] came before every element of [l] in the unsorted list, so it goes
    in front of the first element whose key is not greater than its own. *)
Fixpoint insert_desc (x : A) (l : list A) : list A :=
  match l with
  | [] => [x]
  | y :: l' =>
      if ltb (key x) (key y) then y :: insert_desc x l' else x :: y :: l'
  end.

(** [l.sort(key=key, reverse=True)]: descending, equal keys keep their
    original order. *)
Definition sort_desc (l : list A) : list A := foldr insert_desc [] l.

End StableSort.

(** [sorted({...})] on strings: ascending code points, each string once. *)
Fixpoint insert_sorted (x : string) (l : list string) : list string :=
  match l with
  | [] => [x]
  | y :: l' =>
      match String.compare x y with
      | Lt => x :: l
      | Eq => l
      | Gt => y :: insert_sorted x l'
      end
  end.

Definition sorted_set (l : list string) : list string := foldr insert_sorted [] l.

(* ===================================================================== *)
(** ** generator.py: the skill resolver *)
(* ===================================================================== *)

(** The module-level fallback used when [data/careers.json] is missing,
    unreadable or empty. *)
Definition fallback_dataset : list Career := [data_analyst; frontend_developer].

(** Module initialisation of [CAREER_DATASET] from what the file held
    ([None]: no file, unreadable, or not JSON). *)
Definition load_career_dataset (file : option (list Career)) : list Career :=
  match file with
  | Some (c :: l) => c :: l
  | _ => fallback_dataset
  end.

(** The dict the function builds and returns. *)
Record Output : Type := Build_Output {
  out_input : UserInput;
  out_derived_skills : list string;
  out_chosen_career : string;
  out_roadmaps : list Roadmap;
  out_images : option (list string)
}.

Definition set_images (out : Output) (urls : list string) : Output :=
  Build_Output (out_input out) (out_derived_skills out) (out_chosen_career out)
    (out_roadmaps out) (Some urls).

(** [{**user_input, 'skills': skills}] *)
Definition with_skills (user_input : UserInput) (skills : list string) : UserInput :=
  Build_UserInput (Some skills) (u_answers user_input) (u_education user_input)
    (u_summary user_input).

Section Generator.

(** The global corpus. *)
Variable CAREER_DATASET : list Career.

(** [embeddings_index.query_skill(s, k)]: the neighbours and their
    similarities, or an exception (no index, no model, ...). *)
Variable query_skill : string -> nat -> Result (list string * list Q).

(** [rapidfuzz.fuzz.token_sort_ratio] *)
Variable token_sort_ratio : string -> string -> Q.

Definition SKILL_VOCAB : list string :=
  match CAREER_DATASET with
  | _ :: _ =>
      sorted_set (c ← CAREER_DATASET; map PyStr.lower (get (c_skills c) []))
  | [] => []
  end.

(** [rapidfuzz.process.extractOne(query, choices, scorer=token_sort_ratio)]:
    the first choice of maximal score, [None] when there is no choice. *)
Fixpoint extractOne (query : string) (choices : list string) : option (string * Q) :=
  match choices with
  | [] => None
  | c :: rest =>
      let sc := token_sort_ratio query c in
      match extractOne query rest with
      | Some (c', sc') => if Qgtb sc' sc then Some (c', sc') else Some (c, sc)
      | None => Some (c, sc)
      end
  end.

(** The [try] block of the loop body: [Some nn[0]] when it reaches
    [continue], [None] when the threshold is not passed or anything in the
    block raises. *)
Definition try_semantic (s : string) : option string :=
  match query_skill s 1 with
  | Ok (nn, d) =>
      match d with
      | d0 :: _ =>
          if Qgtb d0 0.6 then
            match nn with
            | nn0 :: _ => Some nn0
            | [] => None
            end
          else None
      | [] => None
      end
  | Raise _ => None
  end.

(** [# fallback fuzzy] *)
Definition fuzzy_fallback (s : string) : string :=
  match extractOne s SKILL_VOCAB with
  | Some best => best.1
  | None => PyStr.lower s
  end.

(** One iteration of the first loop of [normalize_skills]: the token
    appended to [normalized]. *)
Definition resolve_skill (raw : string) : string :=
  let s := PyStr.strip raw in
  match try_semantic s with
  | Some token => token
  | None => fuzzy_fallback s
  end.

(** [# dedupe] *)
Fixpoint dedupe (seen : list string) (normalized : list string) : list string :=
  match normalized with
  | [] => seen
  | x :: rest =>
      if decide (x ∈ seen) then dedupe seen rest else dedupe (seen ++ [x]) rest
  end.

Definition normalize_skills (raw_skills : list string) : list string :=
  dedupe [] (map resolve_skill raw_skills).

(* ------------------------------------------------------------------- *)
(** *** _derive_skills_from_quiz *)

Definition type_to_skills (t : string) : list string :=
  if String.eqb t "A" then ["python"; "analysis"; "sql"; "data visualization"]
  else if String.eqb t "B" then ["communication"; "teaching"; "empathy"; "presentation"]
  else if String.eqb t "C" then ["design"; "creativity"; "ui/ux"; "writing"]
  else if String.eqb t "D" then ["project management"; "organization"; "planning"; "leadership"]
  else [].

(** [tallied[sk] = tallied.get(sk, 0) + 1] on a dict, which keeps its keys
    in the order they were first inserted. *)
Fixpoint tally (tallied : list (string * nat)) (sk : string) : list (string * nat) :=
  match tallied with
  | [] => [(sk, 1)]
  | (k, n) :: rest =>
      if String.eqb k sk then (k, n + 1) :: rest else (k, n) :: tally rest sk
  end.

Definition _derive_skills_from_quiz (answers : option (list (option string)))
    : list string :=
  let tallied :=
    foldl (fun acc ans => foldl tally acc (type_to_skills (PyStr.upper (str_or ans ""))))
          [] (get answers []) in
  let ranked := sort_desc Nat.ltb snd tallied in
  map fst (take 8 ranked).

(* ------------------------------------------------------------------- *)
(** *** The matcher: lines 241-250 of generate_roadmaps_for_user *)

Definition cskills_of (c : Career) : list string :=
  map PyStr.lower (get (c_skills c) []).

Definition overlap_of (skills : list string) (c : Career) : nat :=
  size ((list_to_set skills : gset string) ∩ list_to_set (cskills_of c)).

Definition kw_bonus_of (summary : option string) (c : Career) : Q :=
  if existsb (fun k => PyStr.contains k (PyStr.lower (str_or summary "")))
             (take 5 (cskills_of c))
  then 0.2 else 0.

(** [len(cskills) or 1] *)
Definition len_or_1 (n : nat) : nat := if decide (n = 0) then 1 else n.

Definition score_of (skills : list string) (summary : option string) (c : Career) : Q :=
  (inject_Z (Z.of_nat (overlap_of skills c))
   / inject_Z (Z.of_nat (max 1 (len_or_1 (length (cskills_of c)))))
   + kw_bonus_of summary c)%Q.

Definition scored_of (skills : list string) (summary : option string)
    : list (Career * Q) :=
  sort_desc Qltb snd (map (fun c => (c, score_of skills summary c)) CAREER_DATASET).

(** [top = scored[0][0] if scored else CAREER_DATASET[0]] *)
Definition select_top (skills : list string) (summary : option string) : Result Career :=
  match scored_of skills summary with
  | (c, _) :: _ => Ok c
  | [] =>
      match CAREER_DATASET with
      | c :: _ => Ok c
      | [] => Raise IndexError
      end
  end.

(* ------------------------------------------------------------------- *)
(** *** _plot_roadmaps and the JSON artifacts *)

(** [Path.mkdir] *)
Variable mkdir : string -> Result unit.

(** Drawing one roadmap with matplotlib and saving the figure under the
    given file name. *)
Variable render_png : string -> Roadmap -> Result unit.

(** [with open(path, 'w') as f: json.dump(out, f)] *)
Variable write_json : string -> Output -> Result unit.

(** [datetime.utcnow().strftime(...)] *)
Variable timestamp : string.

Fixpoint plot_from (idx : nat) (roadmaps : list Roadmap) : Result (list string) :=
  match roadmaps with
  | [] => Ok []
  | r :: rest =>
      let fname := "roadmap_" +:+ PyStr.str_of_nat (idx + 1) +:+ ".png" in
      _ ← render_png ("static/roadmaps/" +:+ fname) r;
      urls ← plot_from (idx + 1) rest;
      Ok (("/static/roadmaps/" +:+ fname) :: urls)
  end.

Definition _plot_roadmaps (roadmaps : list Roadmap) (output_dir : string)
    : Result (list string) :=
  _ ← mkdir output_dir;
  plot_from 0 roadmaps.

(* ------------------------------------------------------------------- *)
(** *** generate_roadmaps_for_user *)

(** The roadmap computation: everything up to and including the
    construction of [out] (line 257) and its serialization to plain dicts,
    which keeps every field as it is. The index build of lines 234-239 only
    touches the files that later calls of [query_skill] read. *)
Definition compute_output (user_input : UserInput) (g : Rng) : Result Output :=
  let provided_skills := get (u_skills user_input) [] in
  let derived_skills := _derive_skills_from_quiz (u_answers user_input) in
  let skills := normalize_skills (provided_skills ++ derived_skills) in
  let summary := u_summary user_input in
  top ← select_top skills summary;
  let roadmaps := (generate_distinct_roadmaps (with_skills user_input skills) top g).1 in
  (* top['career'] *)
  chosen ← match c_career top with
           | Some name => Ok name
           | None => Raise (KeyError "career")
           end;
  Ok (Build_Output user_input skills chosen roadmaps None).

Definition generate_roadmaps_for_user (user_input : UserInput) (g : Rng)
    : Result Output :=
  out ← compute_output user_input g;
  (* save visualizations to static folder *)
  image_urls ← _plot_roadmaps (out_roadmaps out) "static/roadmaps";
  let out := set_images out image_urls in
  (* save files *)
  _ ← write_json "generated_roadmaps_output.json" out;
  _ ← mkdir "outputs";
  _ ← write_json ("outputs/roadmaps_" +:+ timestamp +:+ ".json") out;
  Ok out.

End Generator.

(* ===================================================================== *)
(** ** generator.py: enumerate_nodes and layout_topdown of _plot_roadmaps *)
(* ===================================================================== *)

(** What the walker is handed for a step: a [RoadmapStep] instance, or the
    [__dict__] of one, as [_serialize_nested_steps] leaves it. *)
Inductive PyKind : Type := Instance | Dict.

(** [getattr(s, name, default)]: the field of an instance; a dict has no
    attribute called title, duration_months, milestones, tasks or children,
    so the default. *)
Definition getattr {A : Type} (kind : PyKind) (field : RoadmapStep -> A)
    (s : RoadmapStep) (dflt : A) : A :=
  match kind with
  | Instance => field s
  | Dict => dflt
  end.

(** [(id, title, duration, depth, parent_id, milestones_count, tasks_count)] *)
Record Node : Type := Build_Node {
  node_id : nat;
  node_title : string;
  node_dur : nat;
  node_depth : nat;
  node_parent : option nat;
  node_milestones_count : nat;
  node_tasks_count : nat
}.

(** The state the closure [walk] works on: [nodes], [edges] and
    [counter['i']]. *)
Record Walk : Type := Build_Walk {
  w_nodes : list Node;
  w_edges : list (nat * nat);
  w_counter : nat
}.

(** The body of the loop of [walk] for one step [s]. *)
Fixpoint walk_step (kind : PyKind) (depth : nat) (parent : option nat)
    (s : RoadmapStep) (st : Walk) {struct s} : Walk :=
  let node_id := w_counter st in
  let milestones_count := length (getattr kind milestones s []) in
  let tasks_count := length (getattr kind tasks s []) in
  let node := Build_Node node_id (getattr kind title s "")
                (getattr kind duration_months s 1) depth parent
                milestones_count tasks_count in
  let st := Build_Walk (w_nodes st ++ [node]) (w_edges st) (node_id + 1) in
  (* children = getattr(s, 'children', []): those of an instance, none for
     a dict *)
  match kind with
  | Instance =>
      foldl (fun st ch =>
               let child_id := w_counter st in
               walk_step kind (depth + 1) (Some node_id) ch
                 (Build_Walk (w_nodes st) (w_edges st ++ [(node_id, child_id)])
                    (w_counter st)))
            st (children s)
  | Dict => st
  end.

Definition walk (kind : PyKind) (lst : list RoadmapStep) (depth : nat)
    (parent : option nat) (st : Walk) : Walk :=
  foldl (fun st s => walk_step kind depth parent s st) st lst.

Definition enumerate_nodes (kind : PyKind) (steps : list RoadmapStep)
    : list Node * list (nat * nat) :=
  let st := walk kind steps 0 None (Build_Walk [] [] 0) in
  (w_nodes st, w_edges st).

(** [layout_topdown]: the dict [positions], filled in node order. *)
Definition layout_topdown (nodes : list Node) : gmap nat (nat * Z) :=
  (foldl (fun acc n =>
            (<[node_id n := (acc.2, (- Z.of_nat (node_depth n))%Z)]> acc.1, acc.2 + 1))
         (∅, 0) nodes).1.

(* ===================================================================== *)
(** ** Notions used to state the properties *)
(* ===================================================================== *)

(** The five phases with the focus applied: one month more on the phase the
    focus names, nothing else touched. *)
Definition tailored (focus : string) (phases : list RoadmapStep) : list RoadmapStep :=
  match phases with
  | [f; c; p; s; j] =>
      if decide (focus = "Depth") then [f; add_month c; p; s; j]
      else if decide (focus = "Fast-Entry") then [f; c; add_month p; s; j]
      else if decide (focus = "Transition") then [f; c; p; s; add_month j]
      else phases
  | _ => phases
  end.

(** Focus isolation of the step lists of three roadmaps: they are built on
    the same five phases, and each carries one extra month on its own phase. *)
Definition focus_isolated (step_lists : list (list RoadmapStep)) : Prop :=
  ∃ f c p s j,
    step_lists =
      [ [f; add_month c; p; s; j];
        [f; c; add_month p; s; j];
        [f; c; p; s; add_month j] ] ∧
    map title [f; c; p; s; j] =
      ["Foundations"; "Core Skills Development"; "Practical Application";
       "Specialization"; "Career Launch"].

(** A step with every task that is one of [pool] blanked out, at all levels. *)
Fixpoint mask_sampled (pool : list string) (s : RoadmapStep) : RoadmapStep :=
  match s with
  | Build_RoadmapStep t o d pre ms rs ts kids =>
      Build_RoadmapStep t o d pre ms rs
        (map (fun x => if decide (x ∈ pool) then "" else x) ts)
        (map (mask_sampled pool) kids)
  end.

(** A step and everything below it. *)
Fixpoint subtree (s : RoadmapStep) : list RoadmapStep :=
  match s with
  | Build_RoadmapStep _ _ _ _ _ _ _ kids => s :: flat_map subtree kids
  end.

(** The five phases before the focus is applied: a run of the step generator
    with a focus string its [if]/[elif] chain ignores. *)
Definition baseline (career : Career) (profile_skills : list string) (g : Rng)
    : list RoadmapStep :=
  (generate_steps_for_career career profile_skills "" true g).1.

(** An occupation with two tasks. *)
Definition junior_analyst : Career :=
  Build_Career (Some "Junior Analyst") None (Some ["python"; "sql"])
    (Some ["Clean data"; "Build dashboards"]) None None.

(** [a] occurs in [l] before every occurrence of [b]. *)
Definition occurs_before (a b : string) (l : list string) : Prop :=
  ∃ i, l !! i = Some a ∧ ∀ j, l !! j = Some b → i < j.

(** A scorer for the examples: 100 for equal strings up to case, else 0. *)
Definition exact_ratio (a b : string) : Q :=
  if String.eqb (PyStr.lower a) (PyStr.lower b) then 100 else 0.

(** An index that answers every query with "css" at similarity 0.6. *)
Definition index_at_threshold (s : string) (k : nat) : Result (list string * list Q) :=
  Ok (["css"], [0.6%Q]).

(** An index that is not there. *)
Definition index_missing (s : string) (k : nat) : Result (list string * list Q) :=
  Raise (CollaboratorError "skill_index.faiss").


(** An occupation that lists one skill twice, in two spellings. *)
Definition repeated_skill : Career :=
  Build_Career (Some "Analyst") None (Some ["Python"; "python"]) None None None.

(** Export isolation as the specification words it: whenever the roadmap
    computation succeeds, the caller gets an output with its results. *)
Definition export_isolated
    (CAREER_DATASET : list Career)
    (query_skill : string -> nat -> Result (list string * list Q))
    (token_sort_ratio : string -> string -> Q)
    (mkdir : string -> Result unit)
    (render_png : string -> Roadmap -> Result unit)
    (write_json : string -> Output -> Result unit)
    (timestamp : string) (user_input : UserInput) (g : Rng) : Prop :=
  ∀ out,
    compute_output CAREER_DATASET query_skill token_sort_ratio user_input g = Ok out →
    ∃ out',
      generate_roadmaps_for_user CAREER_DATASET query_skill token_sort_ratio mkdir
        render_png write_json timestamp user_input g = Ok out' ∧
      out_derived_skills out' = out_derived_skills out ∧
      out_chosen_career out' = out_chosen_career out ∧
      out_roadmaps out' = out_roadmaps out.

(** Collaborators for the examples. *)
Definition mkdir_ok (path : string) : Result unit := Ok ().
Definition write_ok (path : string) (out : Output) : Result unit := Ok ().
Definition render_ok (fname : string) (r : Roadmap) : Result unit := Ok ().
Definition render_down (fname : string) (r : Roadmap) : Result unit :=
  Raise (CollaboratorError "matplotlib").

Definition python_sql_request : UserInput :=
  Build_UserInput (Some ["python"; "sql"]) (Some []) (Some "") (Some "").

(** The placeholder tasks ["prefix 1"; ...; "prefix count"]. *)
Definition placeholders (count : nat) (prefix : string) : list string :=
  map (fun i => prefix +:+ " " +:+ PyStr.str_of_nat (i + 1)) (seq 0 count).

(* ------------------------------------------------------------------- *)
(** *** Further notions *)

(** A string that does not start with white space. *)
Definition no_leading_space (s : string) : Prop :=
  match s with
  | EmptyString => True
  | String c _ => PyStr.is_space c = false
  end.

(** Every element of [l] is [R]-related to every later one. *)
Definition ordered {A : Type} (R : A -> A -> Prop) (l : list A) : Prop :=
  ∀ i j x y, l !! i = Some x → l !! j = Some y → i < j → R x y.

(** Strictly ascending, hence without repeats. *)
Definition ascending (l : list string) : Prop :=
  ordered (fun x y => String.compare x y = Lt) l.

(** Equality of scores is decidable. *)
#[export] Instance Qeq_decision (x y : Q) : Decision (x == y)%Q := Qeq_dec x y.

(** The skills of the cluster an answer points to. *)
Definition cluster_of (ans : option string) : list string :=
  type_to_skills (PyStr.upper (str_or ans "")).

(** The skills the answers name, answer by answer. *)
Definition answered_skills (answers : list (option string)) : list string :=
  ans ← answers; cluster_of ans.

(** The number of answers whose cluster holds [x]. *)
Definition votes (x : string) (answers : list (option string)) : nat :=
  length (filter (fun ans => x ∈ cluster_of ans) answers).

(** The number of times [k] occurs in [l]. *)
Definition occ (k : string) (l : list string) : nat :=
  length (filter (fun y => y = k) l).

(** The file a roadmap is drawn to, and the URL it is served under. *)
Definition png_path (idx : nat) : string :=
  "static/roadmaps/" +:+ ("roadmap_" +:+ PyStr.str_of_nat (idx + 1) +:+ ".png").
Definition png_url (idx : nat) : string :=
  "/static/roadmaps/" +:+ ("roadmap_" +:+ PyStr.str_of_nat (idx + 1) +:+ ".png").

(** An occupation known by its label only. *)
Definition labelled_only : Career :=
  Build_Career None (Some "Data Steward") (Some ["sql"]) None None None.

(** The resolved skills of a request: the explicit skills followed by those
    derived from the quiz. *)
Definition request_skills (CAREER_DATASET : list Career)
    (query_skill : string -> nat -> Result (list string * list Q))
    (token_sort_ratio : string -> string -> Q) (user_input : UserInput) : list string :=
  normalize_skills CAREER_DATASET query_skill token_sort_ratio
    (get (u_skills user_input) [] ++ _derive_skills_from_quiz (u_answers user_input)).

(** The edge that leads to a node, if it has a parent. *)
Definition edge_of (n : Node) : option (nat * nat) :=
  p ← node_parent n; Some (p, node_id n).

(** What a node shows of its step, and what a step has to show. *)
Definition node_facts (n : Node) : string * nat * nat * nat :=
  (node_title n, node_dur n, node_milestones_count n, node_tasks_count n).
Definition step_facts (s : RoadmapStep) : string * nat * nat * nat :=
  (title s, duration_months s, length (milestones s), length (tasks s)).

(** [new] numbers the steps of the forest [l] in preorder from [c] on, its
    roots at depth [d] under parent [p]. *)
Definition numbered (c d : nat) (p : option nat) (l : list RoadmapStep)
    (new : list Node) : Prop :=
  map node_id new = seq c (length (flat_map subtree l)) ∧
  map node_facts new = map step_facts (flat_map subtree l) ∧
  ∀ n s, (n, s) ∈ zip new (flat_map subtree l) →
    (node_depth n = d ∧ node_parent n = p ∧ s ∈ l) ∨
    (∃ pn sp, (pn, sp) ∈ zip new (flat_map subtree l) ∧
              node_parent n = Some (node_id pn) ∧ node_id pn < node_id n ∧
              node_depth n = node_depth pn + 1 ∧ s ∈ children sp).

(** A parent with one child, and their nodes. *)
Definition leaf_step : RoadmapStep :=
  Build_RoadmapStep "Leaf" "" 2 [] ["m"] [] ["t1"; "t2"] [].
Definition parent_step : RoadmapStep :=
  Build_RoadmapStep "Parent" "" 3 [] [] [] ["t"] [leaf_step].

(* ===================================================================== *)
(** * Properties *)
(* ===================================================================== *)

(** ** The embedding on concrete inputs *)

Example lower_mixed : PyStr.lower "Data Viz 2" = "data viz 2".
Proof. reflexivity. Qed.

Example title_words : PyStr.title "data visualization" = "Data Visualization".
Proof. reflexivity. Qed.

Example title_apostrophe : PyStr.title "bachelor's sQL" = "Bachelor'S Sql".
Proof. reflexivity. Qed.

Example strip_both : PyStr.strip "  sql server  " = "sql server".
Proof. reflexivity. Qed.

Example contains_inner : PyStr.contains "sql" "i know sql well" = true.
Proof. reflexivity. Qed.

Example contains_empty_needle : PyStr.contains "" "abc" = true.
Proof. reflexivity. Qed.

Example join_three : PyStr.join ", " ["a"; "b"; "c"] = "a, b, c".
Proof. reflexivity. Qed.

Example str_of_nat_12 : PyStr.str_of_nat 12 = "12".
Proof. reflexivity. Qed.

Example sample_in_order :
  random_sample ["a"; "b"; "c"] 2 [0; 0; 7] = (["a"; "b"], [7]).
Proof. reflexivity. Qed.

Example sample_swapped :
  random_sample ["a"; "b"; "c"] 3 [2; 0; 0] = (["c"; "a"; "b"], []).
Proof. reflexivity. Qed.

Example data_analyst_titles :
  map title (generate_steps_for_career data_analyst ["python"; "sql"] "Depth" true []).1
  = ["Foundations"; "Core Skills Development"; "Practical Application";
     "Specialization"; "Career Launch"].
Proof. reflexivity. Qed.

Example data_analyst_durations :
  map duration_months
      (generate_steps_for_career data_analyst ["python"; "sql"] "Depth" true []).1
  = [1; 3; 2; 2; 2].
Proof. reflexivity. Qed.

Example data_analyst_core_children :
  map title (children (core_step data_analyst ["python"; "sql"]))
  = ["Data Visualization Proficiency"; "Pandas Proficiency"].
Proof. reflexivity. Qed.

Example sort_desc_stable :
  sort_desc Nat.ltb snd [("a", 1); ("b", 3); ("c", 1); ("d", 3)]
  = [("b", 3); ("d", 3); ("a", 1); ("c", 1)].
Proof. reflexivity. Qed.

Example sorted_set_example :
  sorted_set ["sql"; "python"; "sql"; "css"] = ["css"; "python"; "sql"].
Proof. reflexivity. Qed.

(* ===================================================================== *)
(** ** Roadmap synthesis *)
(* ===================================================================== *)

Section SynthesisFacts.

Variable career : Career.
Variable profile_skills : list string.

(** The step generator runs its three sampling blocks in order and applies
    the focus to the five phases they give. *)
Lemma generate_steps_unfold (focus : string) (beginner : bool) (g : Rng) :
  generate_steps_for_career career profile_skills focus beginner g =
    let '(fk, g1) := foundations_children career beginner g in
    let '(pk, g2) := project_children career profile_skills g1 in
    let '(sk, g3) := spec_children career profile_skills g2 in
    (tailored focus
       [foundations_step beginner fk; core_step career profile_skills;
        project_step career profile_skills pk; spec_step career sk;
        job_step career profile_skills], g3).
Proof.
  unfold generate_steps_for_career, bind, ret, tailored.
  destruct (foundations_children career beginner g) as [fk g1].
  destruct (project_children career profile_skills g1) as [pk g2].
  destruct (spec_children career profile_skills g2) as [sk g3].
  destruct (String.eqb_spec focus "Depth") as [->|HD].
  { reflexivity. }
  rewrite decide_False by exact HD.
  destruct (String.eqb_spec focus "Fast-Entry") as [->|HF].
  { reflexivity. }
  rewrite decide_False by exact HF.
  destruct (String.eqb_spec focus "Transition") as [->|HT].
  { reflexivity. }
  rewrite decide_False by exact HT.
  reflexivity.
Qed.

Lemma tailored_unrecognized (focus : string) (phases : list RoadmapStep) :
  focus ∉ focuses → tailored focus phases = phases.
Proof.
  intros Hf. unfold tailored.
  destruct phases as [|f [|c [|p [|s [|j [|x rest]]]]]]; try reflexivity.
  repeat case_decide; subst; try reflexivity; exfalso; apply Hf;
    unfold focuses; set_solver.
Qed.

Lemma empty_focus_unrecognized : "" ∉ focuses.
Proof. apply (bool_decide_unpack _). vm_compute. exact I. Qed.

Lemma project_children_length (g : Rng) :
  length (project_children career profile_skills g).1 = 2.
Proof.
  unfold project_children, bind, ret.
  destruct (get_tasks career 4 _ g) as [t1 g1].
  destruct (get_tasks career 5 _ g1) as [t2 g2].
  reflexivity.
Qed.

Lemma tailored_cases (focus : string) (f c p s j : RoadmapStep) :
  tailored focus [f; c; p; s; j] = [f; c; p; s; j] ∨
  tailored focus [f; c; p; s; j] = [f; add_month c; p; s; j] ∨
  tailored focus [f; c; p; s; j] = [f; c; add_month p; s; j] ∨
  tailored focus [f; c; p; s; j] = [f; c; p; s; add_month j].
Proof. unfold tailored. repeat case_decide; auto. Qed.

(** C10: a focus string the step generator does not recognise changes no
    duration. The five phases keep their baseline months (1, the larger of
    2 and the number of core sub-steps, 2, 2, 2), and the run of each
    recognised focus from the same generator state gives the very same
    phases with one month added to that focus's phase, and leaves the
    generator in the same state. *)
Theorem unrecognized_focus_no_adjustment (focus : string) (g : Rng) :
  focus ∉ focuses →
  ∃ f c p s j g',
    generate_steps_for_career career profile_skills focus true g
      = ([f; c; p; s; j], g') ∧
    map title [f; c; p; s; j]
      = ["Foundations"; "Core Skills Development"; "Practical Application";
         "Specialization"; "Career Launch"] ∧
    map duration_months [f; c; p; s; j]
      = [1; max 2 (length (children c)); 2; 2; 2] ∧
    generate_steps_for_career career profile_skills "Depth" true g
      = ([f; add_month c; p; s; j], g') ∧
    generate_steps_for_career career profile_skills "Fast-Entry" true g
      = ([f; c; add_month p; s; j], g') ∧
    generate_steps_for_career career profile_skills "Transition" true g
      = ([f; c; p; s; add_month j], g').
Proof.
  intros Hf.
  rewrite !generate_steps_unfold.
  destruct (foundations_children career true g) as [fk g1].
  pose proof (project_children_length g1) as Hlen.
  destruct (project_children career profile_skills g1) as [pk g2].
  destruct (spec_children career profile_skills g2) as [sk g3].
  simpl in Hlen.
  rewrite tailored_unrecognized by exact Hf.
  eexists _, _, _, _, _, _.
  split; [reflexivity|].
  split; [reflexivity|].
  split; [|repeat split; reflexivity].
  cbn [map duration_months foundations_step core_step project_step spec_step
       job_step make_step children get default].
  rewrite Hlen. reflexivity.
Qed.

Lemma known_no_skills :
  get (c_skills career) [] = [] → known career profile_skills = [].
Proof. unfold known. intros ->. reflexivity. Qed.

Lemma missing_no_skills :
  get (c_skills career) [] = [] → missing career profile_skills = [].
Proof. unfold missing. intros ->. reflexivity. Qed.

Lemma core_children_no_skills :
  get (c_skills career) [] = [] → core_children career profile_skills = [].
Proof.
  intros H. unfold core_children, skills_to_learn.
  rewrite (missing_no_skills H), H. reflexivity.
Qed.

Lemma get_tasks_no_tasks (count : nat) (prefix : string) (g : Rng) :
  get (c_tasks career) [] = [] →
  get_tasks career count prefix g = (placeholders count prefix, g).
Proof. unfold get_tasks, career_tasks. intros ->. reflexivity. Qed.

(** C7: for every occupation, skill list, focus and mode, the step
    generator returns exactly five top-level steps, titled Foundations,
    Core Skills Development, Practical Application, Specialization and
    Career Launch in that order. An occupation without skills gives a core
    phase without sub-steps and no prerequisite anywhere in the tree; an
    occupation without tasks gives the synthetic placeholder tasks wherever
    tasks would have been sampled, and draws nothing from the generator. *)
Theorem synthesis_completeness (focus : string) (beginner : bool) (g : Rng) :
  ∃ f c p s j g',
    generate_steps_for_career career profile_skills focus beginner g
      = ([f; c; p; s; j], g') ∧
    map title [f; c; p; s; j]
      = ["Foundations"; "Core Skills Development"; "Practical Application";
         "Specialization"; "Career Launch"] ∧
    (get (c_skills career) [] = [] →
       children c = [] ∧
       Forall (fun x => prerequisites x = []) (flat_map subtree [f; c; p; s; j])) ∧
    (get (c_tasks career) [] = [] →
       g' = g ∧
       (beginner = true →
          tasks <$> children f !! 0
            = Some (placeholders 5 "Study fundamental concept")) ∧
       tasks <$> children p !! 0
         = Some (["Select a real-world problem to solve"; "Plan the solution"]
                 ++ placeholders 4 "Implement basic feature") ∧
       tasks <$> children p !! 1
         = Some (["Define advanced project requirements"]
                 ++ placeholders 5 "Implement advanced feature") ∧
       tasks <$> children s !! 0
         = Some (placeholders 4 "Study advanced topic")).
Proof.
  rewrite generate_steps_unfold.
  unfold foundations_children, project_children, spec_children, bind, ret.
  destruct beginner;
    [destruct (get_tasks career 5 "Study fundamental concept" g) as [t1 g1] eqn:E1
    |pose (g1 := g); change (get_tasks career 4 "Implement basic feature" g)
       with (get_tasks career 4 "Implement basic feature" g1)];
    (destruct (get_tasks career 4 "Implement basic feature" g1) as [t2 g2] eqn:E2;
     destruct (get_tasks career 5 "Implement advanced feature" g2) as [t3 g3] eqn:E3;
     destruct (get_tasks career 4 "Study advanced topic" g3) as [t4 g4] eqn:E4;
     match goal with |- context [tailored focus (?f :: ?c :: ?p :: ?s :: ?j :: nil)] =>
       destruct (tailored_cases focus f c p s j) as [-> | [-> | [-> | ->]]] end;
     eexists _, _, _, _, _, _;
     (split; [reflexivity|]); (split; [reflexivity|]); split).
  all: try (intros Hs; split;
            [exact (core_children_no_skills Hs)|];
            unfold foundations_step, core_step, project_step, spec_step,
              job_step, add_month, make_step;
            rewrite (core_children_no_skills Hs),
              (known_no_skills Hs),
              (missing_no_skills Hs);
            cbn [flat_map subtree job_children make_step get default app take
                 title objective duration_months prerequisites milestones
                 resources tasks children];
            repeat constructor).
  all: intros Ht; try subst g1;
       rewrite ?(get_tasks_no_tasks _ _ _ Ht) in *; simplify_eq;
       repeat split; try reflexivity; intros; discriminate.
Qed.

End SynthesisFacts.

(** *** Concrete runs of the step generator *)

Lemma FastEntry_unrecognized : "FastEntry" ∉ focuses.
Proof. apply (bool_decide_unpack _). vm_compute. exact I. Qed.

Lemma unrecognized_focus_witness :
  ∃ f c p s j g',
    generate_steps_for_career data_analyst ["python"; "sql"] "FastEntry" true [4; 2]
      = ([f; c; p; s; j], g') ∧
    map title [f; c; p; s; j]
      = ["Foundations"; "Core Skills Development"; "Practical Application";
         "Specialization"; "Career Launch"] ∧
    map duration_months [f; c; p; s; j]
      = [1; max 2 (length (children c)); 2; 2; 2] ∧
    generate_steps_for_career data_analyst ["python"; "sql"] "Depth" true [4; 2]
      = ([f; add_month c; p; s; j], g') ∧
    generate_steps_for_career data_analyst ["python"; "sql"] "Fast-Entry" true [4; 2]
      = ([f; c; add_month p; s; j], g') ∧
    generate_steps_for_career data_analyst ["python"; "sql"] "Transition" true [4; 2]
      = ([f; c; p; s; add_month j], g').
Proof.
  exact (unrecognized_focus_no_adjustment data_analyst ["python"; "sql"] "FastEntry"
           [4; 2] FastEntry_unrecognized).
Defined.

Example spec_spelling_of_fast_entry_is_ignored :
  map duration_months
    (generate_steps_for_career data_analyst ["python"; "sql"] "FastEntry" true []).1
  = [1; 2; 2; 2; 2].
Proof. reflexivity. Qed.

Example code_spelling_of_fast_entry :
  map duration_months
    (generate_steps_for_career data_analyst ["python"; "sql"] "Fast-Entry" true []).1
  = [1; 2; 3; 2; 2].
Proof. reflexivity. Qed.

(** *** Sampling *)

Lemma random_sample_nil (k : nat) (g : Rng) : (random_sample [] k g).1 = [].
Proof. destruct k; [reflexivity|]. destruct g; reflexivity. Qed.

Lemma random_sample_step (avail : list string) (k : nat) (g : Rng) :
  avail ≠ [] →
  ∃ j x,
    avail !! j = Some x ∧
    random_sample avail (S k) g =
      (x :: (random_sample (delete j avail) k (tail g)).1,
       (random_sample (delete j avail) k (tail g)).2).
Proof.
  intros Hne.
  assert (Hlen : length avail ≠ 0) by (destruct avail; simpl; [done|lia]).
  set (j := match g with [] => 0 | d :: _ => d mod length avail end).
  assert (Hj : j < length avail).
  { subst j. destruct g; [lia|]. apply Nat.mod_upper_bound. exact Hlen. }
  destruct (lookup_lt_is_Some_2 avail j Hj) as [x Hx].
  exists j, x. split; [exact Hx|].
  cbn [random_sample]. unfold bind, randbelow, ret.
  subst j. destruct g as [|d g']; cbn [tail] in *; rewrite Hx;
    destruct (random_sample _ k _); reflexivity.
Qed.

Lemma random_sample_masked (pool : list string) (k : nat) :
  ∀ (avail : list string) (g : Rng),
    avail ⊆ pool →
    map (fun x => if decide (x ∈ pool) then "" else x) (random_sample avail k g).1
      = replicate (min k (length avail)) "".
Proof.
  induction k as [|k IH]; intros avail g Hsub; [reflexivity|].
  destruct (decide (avail = [])) as [->|Hne].
  { rewrite random_sample_nil. reflexivity. }
  destruct (random_sample_step avail k g Hne) as (j & x & Hx & ->).
  cbn [fst map].
  rewrite IH.
  - rewrite decide_True by (apply Hsub; eapply list_elem_of_lookup_2; eauto).
    assert (Hd : length (delete j avail) = length avail - 1)
      by (apply length_delete; eauto).
    assert (Hpos : 0 < length avail) by (eapply Nat.le_lt_trans; [apply Nat.le_0_l|]; eapply lookup_lt_Some; eauto).
    rewrite Hd.
    replace (min (S k) (length avail)) with (S (min k (length avail - 1))) by lia.
    reflexivity.
  - intros y Hy. apply Hsub. eapply list_elem_of_delete_inv. exact Hy.
Qed.

(** *** Focus isolation *)

Section Isolation.
Variable career : Career.
Variable profile_skills : list string.

Local Abbreviation pool := (get (c_tasks career) []).
Local Abbreviation blank := (fun x : string => if decide (x ∈ pool) then "" else x).

Lemma get_tasks_masked (count : nat) (prefix : string) (g g' : Rng) :
  map blank (get_tasks career count prefix g).1
  = map blank (get_tasks career count prefix g').1.
Proof.
  unfold get_tasks, career_tasks.
  destruct (get (c_tasks career) []) as [|t rest] eqn:Ep; [reflexivity|].
  rewrite !random_sample_masked by reflexivity. reflexivity.
Qed.

Lemma get_tasks_single (count : nat) (prefix : string) (g g' : Rng) :
  length pool ≤ 1 →
  (get_tasks career count prefix g).1 = (get_tasks career count prefix g').1.
Proof.
  unfold get_tasks, career_tasks.
  destruct (get (c_tasks career) []) as [|t [|t' rest]]; cbn [length];
    intros Hlen; [reflexivity| |lia].
  destruct count as [|count]; [reflexivity|].
  cbn. destruct g, g'; cbn; rewrite ?Nat.mod_1_r; reflexivity.
Qed.

Lemma generate_steps_tailored (focus : string) (g : Rng) :
  (generate_steps_for_career career profile_skills focus true g).1
    = tailored focus (baseline career profile_skills g) ∧
  (generate_steps_for_career career profile_skills focus true g).2
    = (generate_steps_for_career career profile_skills "" true g).2.
Proof.
  unfold baseline. rewrite !generate_steps_unfold.
  destruct (foundations_children career true g) as [fk g1].
  destruct (project_children career profile_skills g1) as [pk g2].
  destruct (spec_children career profile_skills g2) as [sk g3].
  split; reflexivity.
Qed.

Lemma mask_add_month (s : RoadmapStep) :
  mask_sampled pool (add_month s) = add_month (mask_sampled pool s).
Proof. destruct s. reflexivity. Qed.

Lemma mask_tailored (focus : string) (phases : list RoadmapStep) :
  map (mask_sampled pool) (tailored focus phases)
  = tailored focus (map (mask_sampled pool) phases).
Proof.
  destruct phases as [|f [|c [|p [|s [|j [|x rest]]]]]]; try reflexivity.
  unfold tailored. cbn [map].
  repeat case_decide; cbn [map]; rewrite ?mask_add_month; reflexivity.
Qed.

(** Runs the same [get_tasks] call from two generator states, keeping what
    [lem] says about the two results. *)
Ltac both_get_tasks lem count prefix g g' H :=
  let t := fresh "t" in
  let t' := fresh "t'" in
  let g1 := fresh "g" in
  let g1' := fresh "g'" in
  pose proof (lem count prefix g g') as H;
  destruct (get_tasks career count prefix g) as [t g1];
  destruct (get_tasks career count prefix g') as [t' g1'];
  cbn [fst] in H.

Lemma baseline_masked (g g' : Rng) :
  map (mask_sampled pool) (baseline career profile_skills g)
  = map (mask_sampled pool) (baseline career profile_skills g').
Proof.
  unfold baseline. rewrite !generate_steps_unfold.
  unfold foundations_children, project_children, spec_children, bind, ret.
  both_get_tasks get_tasks_masked 5 "Study fundamental concept" g g' H1.
  both_get_tasks get_tasks_masked 4 "Implement basic feature" g0 g'0 H2.
  both_get_tasks get_tasks_masked 5 "Implement advanced feature" g1 g'1 H3.
  both_get_tasks get_tasks_masked 4 "Study advanced topic" g2 g'2 H4.
  rewrite !tailored_unrecognized by exact empty_focus_unrecognized.
  unfold foundations_step, project_step, spec_step, make_step.
  cbn [map mask_sampled get default from_option id fst].
  rewrite !map_app, H1, H2, H3, H4. reflexivity.
Qed.

Lemma baseline_single (g g' : Rng) :
  length pool ≤ 1 →
  baseline career profile_skills g = baseline career profile_skills g'.
Proof.
  intros Hlen.
  unfold baseline. rewrite !generate_steps_unfold.
  unfold foundations_children, project_children, spec_children, bind, ret.
  both_get_tasks (fun n pfx g g' => get_tasks_single n pfx g g' Hlen)
    5 "Study fundamental concept" g g' H1.
  both_get_tasks (fun n pfx g g' => get_tasks_single n pfx g g' Hlen)
    4 "Implement basic feature" g0 g'0 H2.
  both_get_tasks (fun n pfx g g' => get_tasks_single n pfx g g' Hlen)
    5 "Implement advanced feature" g1 g'1 H3.
  both_get_tasks (fun n pfx g g' => get_tasks_single n pfx g g' Hlen)
    4 "Study advanced topic" g2 g'2 H4.
  subst. reflexivity.
Qed.

Lemma baseline_shape (g : Rng) :
  ∃ f c p s j,
    baseline career profile_skills g = [f; c; p; s; j] ∧
    map title [f; c; p; s; j] =
      ["Foundations"; "Core Skills Development"; "Practical Application";
       "Specialization"; "Career Launch"].
Proof.
  unfold baseline. rewrite generate_steps_unfold.
  destruct (foundations_children career true g) as [fk g1].
  destruct (project_children career profile_skills g1) as [pk g2].
  destruct (spec_children career profile_skills g2) as [sk g3].
  rewrite tailored_unrecognized by exact empty_focus_unrecognized.
  eexists _, _, _, _, _. split; reflexivity.
Qed.

End Isolation.

Lemma generate_distinct_roadmaps_steps (profile : UserInput) (top : Career) (g : Rng) :
  ∃ g1 g2,
    map steps (generate_distinct_roadmaps profile top g).1 =
      [ tailored "Depth" (baseline top (get (u_skills profile) []) g);
        tailored "Fast-Entry" (baseline top (get (u_skills profile) []) g1);
        tailored "Transition" (baseline top (get (u_skills profile) []) g2) ].
Proof.
  unfold generate_distinct_roadmaps, focuses, for_each, bind, ret.
  set (sk := get (u_skills profile) []).
  pose proof (generate_steps_tailored top sk "Depth" g) as [H1 _].
  destruct (generate_steps_for_career top sk "Depth" true g) as [s1 g1].
  pose proof (generate_steps_tailored top sk "Fast-Entry" g1) as [H2 _].
  destruct (generate_steps_for_career top sk "Fast-Entry" true g1) as [s2 g2].
  pose proof (generate_steps_tailored top sk "Transition" g2) as [H3 _].
  destruct (generate_steps_for_career top sk "Transition" true g2) as [s3 g3].
  cbn [fst] in *. subst.
  exists g1, g2. reflexivity.
Qed.

(** C1, as amended: the three roadmaps of one synthesis pass are built on the
    same five phases and differ in one phase's month count each (Core Skills
    Development for Depth, Practical Application for Fast-Entry, Career
    Launch for Transition, one month more than in the other two roadmaps),
    once the tasks sampled from the occupation's task list are blanked out;
    when the occupation has at most one task, nothing needs blanking and the
    roadmaps themselves are related that way. *)
Theorem focus_isolation_up_to_sampling (profile : UserInput) (top : Career) (g : Rng) :
  let step_lists := map steps (generate_distinct_roadmaps profile top g).1 in
  let pool := get (c_tasks top) [] in
  focus_isolated (map (map (mask_sampled pool)) step_lists) ∧
  (length pool ≤ 1 → focus_isolated step_lists).
Proof.
  intros step_lists pool. subst step_lists pool.
  destruct (generate_distinct_roadmaps_steps profile top g) as (g1 & g2 & ->).
  set (sk := get (u_skills profile) []).
  split.
  - cbn [map]. rewrite !mask_tailored.
    rewrite (baseline_masked top sk g1 g), (baseline_masked top sk g2 g).
    destruct (baseline_shape top sk g) as (f & c & p & s & j & -> & Ht).
    eexists (mask_sampled _ f), (mask_sampled _ c), (mask_sampled _ p),
      (mask_sampled _ s), (mask_sampled _ j).
    split; [reflexivity|].
    revert Ht. destruct f, c, p, s, j. exact (fun H => H).
  - intros Hlen.
    rewrite (baseline_single top sk g1 g Hlen), (baseline_single top sk g2 g Hlen).
    destruct (baseline_shape top sk g) as (f & c & p & s & j & -> & Ht).
    exists f, c, p, s, j. split; [reflexivity|exact Ht].
Qed.

Lemma focus_isolated_foundations (step_lists : list (list RoadmapStep)) :
  focus_isolated step_lists →
  step_lists !! 0 ≫= head = step_lists !! 1 ≫= head.
Proof. intros (f & c & p & s & j & -> & _). reflexivity. Qed.

(** C1 fails as stated: with two occupation tasks and a generator whose
    ninth draw differs from its first, the Depth and Fast-Entry roadmaps
    carry different sampled tasks under Foundations. *)
Lemma focus_isolation_fails_with_two_tasks :
  ¬ focus_isolated
      (map steps
         (generate_distinct_roadmaps (Build_UserInput (Some ["python"]) None None None)
            junior_analyst [0; 0; 0; 0; 0; 0; 0; 0; 1]).1).
Proof.
  intros H. apply focus_isolated_foundations in H.
  vm_compute in H. discriminate H.
Qed.

Lemma focus_isolation_witness :
  let step_lists :=
    map steps (generate_distinct_roadmaps (Build_UserInput (Some ["python"]) None None None)
                 data_analyst [3; 1; 4]).1 in
  focus_isolated (map (map (mask_sampled [])) step_lists) ∧
  (0 ≤ 1 → focus_isolated step_lists).
Proof.
  exact (focus_isolation_up_to_sampling
           (Build_UserInput (Some ["python"]) None None None) data_analyst [3; 1; 4]).
Defined.

(* ===================================================================== *)
(** ** Skill resolution *)
(* ===================================================================== *)

(** *** Comparisons *)

Lemma Qltb_lt (x y : Q) : Qltb x y = true ↔ (x < y)%Q.
Proof.
  unfold Qltb. rewrite negb_true_iff, <- not_true_iff_false, Qle_bool_iff.
  split; [apply Qnot_le_lt | apply Qlt_not_le].
Qed.

Lemma Qltb_ge (x y : Q) : Qltb x y = false ↔ (y <= x)%Q.
Proof.
  unfold Qltb. rewrite negb_false_iff, Qle_bool_iff. reflexivity.
Qed.

Lemma Qgtb_gt (x y : Q) : Qgtb x y = true ↔ (y < x)%Q.
Proof. apply Qltb_lt. Qed.

Lemma Qgtb_le (x y : Q) : Qgtb x y = false ↔ (x <= y)%Q.
Proof. apply Qltb_ge. Qed.

(** *** The dedupe loop *)

Lemma dedupe_elem_of (normalized seen : list string) (x : string) :
  x ∈ dedupe seen normalized ↔ x ∈ seen ∨ x ∈ normalized.
Proof.
  revert seen. induction normalized as [|y rest IH]; intros seen; cbn [dedupe].
  - rewrite elem_of_nil. tauto.
  - rewrite elem_of_cons.
    case_decide as Hy; rewrite IH.
    + split; [tauto|]. intros [?|[->|?]]; tauto.
    + rewrite elem_of_app, list_elem_of_singleton. tauto.
Qed.

Lemma dedupe_NoDup (normalized seen : list string) :
  NoDup seen → NoDup (dedupe seen normalized).
Proof.
  revert seen. induction normalized as [|y rest IH]; intros seen Hnd; cbn [dedupe].
  - exact Hnd.
  - case_decide as Hy; apply IH; [exact Hnd|].
    apply NoDup_app. split; [exact Hnd|]. split.
    + intros z Hz Hz'. apply list_elem_of_singleton in Hz'. subst. contradiction.
    + apply NoDup_singleton.
Qed.

Lemma occurs_before_insert (s l : list string) (x a b : string) :
  x ∈ s → occurs_before a b (s ++ l) → occurs_before a b (s ++ x :: l).
Proof.
  intros Hx (i & Hi & Hb).
  apply list_elem_of_lookup in Hx as [k Hk].
  pose proof (lookup_lt_Some _ _ _ Hk) as Hklt.
  destruct (decide (i < length s)) as [Hlt|Hge].
  - exists i. split.
    + rewrite lookup_app_l in Hi |- * by exact Hlt. exact Hi.
    + intros j Hj.
      destruct (decide (j < length s)) as [Hjlt|Hjge]; [|lia].
      apply Hb. rewrite lookup_app_l in Hj |- * by exact Hjlt. exact Hj.
  - exists (S i). split.
    + rewrite lookup_app_r in Hi |- * by lia.
      replace (S i - length s) with (S (i - length s)) by lia. exact Hi.
    + intros j Hj.
      destruct (decide (j < length s)) as [Hjlt|Hjge].
      { assert (i < j); [|lia].
        apply Hb. rewrite lookup_app_l in Hj |- * by exact Hjlt. exact Hj. }
      rewrite lookup_app_r in Hj by lia.
      destruct (j - length s) as [|m] eqn:Em.
      { cbn in Hj. simplify_eq.
        assert (i < k); [|lia].
        apply Hb. rewrite lookup_app_l by exact Hklt. exact Hk. }
      cbn in Hj.
      assert (i < length s + m); [|lia].
      apply Hb. rewrite lookup_app_r by lia.
      replace (length s + m - length s) with m by lia. exact Hj.
Qed.

Lemma dedupe_order (normalized seen : list string) (i j : nat) (a b : string) :
  NoDup seen →
  dedupe seen normalized !! i = Some a →
  dedupe seen normalized !! j = Some b →
  i < j →
  occurs_before a b (seen ++ normalized).
Proof.
  revert seen. induction normalized as [|y rest IH]; intros seen Hnd Hi Hj Hij;
    cbn [dedupe] in *.
  - rewrite app_nil_r. exists i. split; [exact Hi|].
    intros j' Hj'.
    rewrite (NoDup_lookup _ _ _ _ Hnd Hj' Hj). exact Hij.
  - case_decide as Hy.
    + apply occurs_before_insert; [exact Hy|]. apply IH; assumption.
    + rewrite (cons_middle y seen rest), app_assoc.
      apply IH; [|assumption..].
      apply NoDup_app. split; [exact Hnd|]. split.
      * intros z Hz Hz'. apply list_elem_of_singleton in Hz'. subst. contradiction.
      * apply NoDup_singleton.
Qed.

Section ResolverFacts.

Variable CAREER_DATASET : list Career.
Variable query_skill : string -> nat -> Result (list string * list Q).
Variable token_sort_ratio : string -> string -> Q.

Local Abbreviation vocab := (SKILL_VOCAB CAREER_DATASET).
Local Abbreviation fuzzy := (fuzzy_fallback CAREER_DATASET token_sort_ratio).
Local Abbreviation resolve := (resolve_skill CAREER_DATASET query_skill token_sort_ratio).
Local Abbreviation normalize := (normalize_skills CAREER_DATASET query_skill token_sort_ratio).

Lemma extractOne_None (query : string) (choices : list string) :
  extractOne token_sort_ratio query choices = None ↔ choices = [].
Proof.
  destruct choices as [|c rest]; [done|].
  cbn [extractOne].
  destruct (extractOne token_sort_ratio query rest) as [[c' sc']|];
    [destruct (Qgtb sc' _)|]; done.
Qed.

Lemma extractOne_best (query : string) (choices : list string) (c : string) (sc : Q) :
  extractOne token_sort_ratio query choices = Some (c, sc) →
  c ∈ choices ∧ sc = token_sort_ratio query c ∧
  ∀ c', c' ∈ choices → (token_sort_ratio query c' <= sc)%Q.
Proof.
  revert c sc. induction choices as [|x rest IH]; intros c sc; [done|].
  cbn [extractOne].
  destruct (extractOne token_sort_ratio query rest) as [[c1 sc1]|] eqn:E.
  - destruct (IH c1 sc1 eq_refl) as (Hin & Hsc & Hmax).
    destruct (Qgtb sc1 (token_sort_ratio query x)) eqn:Hcmp; intros [= <- <-].
    + apply Qgtb_gt in Hcmp.
      split; [by right|]. split; [exact Hsc|].
      intros c' [->|Hc']%elem_of_cons; [by apply Qlt_le_weak | by apply Hmax].
    + apply Qgtb_le in Hcmp.
      split; [by left|]. split; [reflexivity|].
      intros c' [->|Hc']%elem_of_cons; [apply Qle_refl|].
      eapply Qle_trans; [by apply Hmax | exact Hcmp].
  - apply extractOne_None in E as ->. intros [= <- <-].
    split; [by left|]. split; [reflexivity|].
    intros c' ->%list_elem_of_singleton. apply Qle_refl.
Qed.

Lemma fuzzy_fallback_empty (s : string) : vocab = [] → fuzzy s = PyStr.lower s.
Proof. unfold fuzzy_fallback. intros ->. reflexivity. Qed.

Lemma fuzzy_fallback_best (s : string) :
  vocab ≠ [] →
  fuzzy s ∈ vocab ∧
  ∀ v, v ∈ vocab → (token_sort_ratio s v <= token_sort_ratio s (fuzzy s))%Q.
Proof.
  intros Hne. unfold fuzzy_fallback.
  destruct (extractOne token_sort_ratio s vocab) as [[c sc]|] eqn:E.
  - destruct (extractOne_best _ _ _ _ E) as (Hin & -> & Hmax). split; assumption.
  - apply extractOne_None in E. contradiction.
Qed.

Lemma try_semantic_raise (s : string) (e : exn) :
  query_skill s 1 = Raise e → try_semantic query_skill s = None.
Proof. unfold try_semantic. intros ->. reflexivity. Qed.

(** C5: when the index answers with a nearest neighbour and its similarity,
    the semantic path is taken, and the neighbour is the resolved token,
    exactly when the similarity is strictly above 0.6; at 0.6 or below the
    semantic path gives nothing and the token is the one of the fuzzy path,
    which for a non-empty vocabulary is a vocabulary token of maximal
    token-sort ratio. *)
Theorem semantic_threshold (raw nn0 : string) (nn : list string) (d0 : Q) (d : list Q) :
  query_skill (PyStr.strip raw) 1 = Ok (nn0 :: nn, d0 :: d) →
  ((0.6 < d0)%Q →
     try_semantic query_skill (PyStr.strip raw) = Some nn0 ∧ resolve raw = nn0) ∧
  ((d0 <= 0.6)%Q →
     try_semantic query_skill (PyStr.strip raw) = None ∧
     resolve raw = fuzzy (PyStr.strip raw) ∧
     (vocab ≠ [] →
        resolve raw ∈ vocab ∧
        ∀ v, v ∈ vocab →
          (token_sort_ratio (PyStr.strip raw) v
           <= token_sort_ratio (PyStr.strip raw) (resolve raw))%Q)).
Proof.
  intros Hq. unfold resolve_skill, try_semantic. rewrite Hq.
  split.
  - intros Hgt. apply Qgtb_gt in Hgt. rewrite Hgt. split; reflexivity.
  - intros Hle. apply Qgtb_le in Hle. rewrite Hle.
    split; [reflexivity|]. split; [reflexivity|]. apply fuzzy_fallback_best.
Qed.

(** C6: resolving a batch never fails. Every input skill gets a token, and
    that token is in the output; a skill whose semantic lookup raises, or
    comes back without a similarity, gets the token of the fuzzy path; the
    fuzzy path gives a vocabulary token when there is a vocabulary and the
    trimmed skill in lower case when there is none. *)
Theorem resolution_never_aborts (raw_skills : list string) :
  (∀ raw, raw ∈ raw_skills → resolve raw ∈ normalize raw_skills) ∧
  (∀ raw e, query_skill (PyStr.strip raw) 1 = Raise e →
     resolve raw = fuzzy (PyStr.strip raw)) ∧
  (∀ raw nn, query_skill (PyStr.strip raw) 1 = Ok (nn, []) →
     resolve raw = fuzzy (PyStr.strip raw)) ∧
  (∀ raw, vocab = [] → fuzzy (PyStr.strip raw) = PyStr.lower (PyStr.strip raw)) ∧
  (∀ raw, vocab ≠ [] → fuzzy (PyStr.strip raw) ∈ vocab).
Proof.
  repeat split.
  - intros raw Hraw. unfold normalize_skills.
    apply dedupe_elem_of. right. apply list_elem_of_fmap. eauto.
  - intros raw e Hq. unfold resolve_skill.
    rewrite (try_semantic_raise _ _ Hq). reflexivity.
  - intros raw nn Hq. unfold resolve_skill, try_semantic. rewrite Hq. reflexivity.
  - intros raw. apply fuzzy_fallback_empty.
  - intros raw Hne. apply fuzzy_fallback_best. exact Hne.
Qed.

(** C9: the resolver's output has no token twice, holds exactly the tokens
    the input skills resolve to, and keeps them in the order of their first
    appearance: when a token comes before another in the output, it occurs
    among the resolved tokens before every occurrence of the other. *)
Theorem normalize_skills_dedup (raw_skills : list string) :
  let tokens := map resolve raw_skills in
  let out := normalize raw_skills in
  NoDup out ∧
  (∀ x, x ∈ out ↔ x ∈ tokens) ∧
  (∀ i j a b, out !! i = Some a → out !! j = Some b → i < j →
     occurs_before a b tokens).
Proof.
  intros tokens out. subst tokens out. unfold normalize_skills.
  split; [|split].
  - apply dedupe_NoDup. apply NoDup_nil_2.
  - intros x. rewrite dedupe_elem_of, elem_of_nil. tauto.
  - intros i j a b Hi Hj Hij.
    apply (dedupe_order _ [] i j a b); [apply NoDup_nil_2|assumption..].
Qed.

End ResolverFacts.

Example vocabulary_of_fallback_dataset :
  SKILL_VOCAB fallback_dataset
  = ["css"; "data visualization"; "html"; "javascript"; "pandas"; "python";
     "react"; "sql"].
Proof. reflexivity. Qed.

Example threshold_paths_disagree :
  resolve_skill fallback_dataset index_at_threshold exact_ratio " Python " = "python".
Proof. reflexivity. Qed.

Lemma semantic_threshold_witness :
  try_semantic index_at_threshold "Python" = None ∧
  resolve_skill fallback_dataset index_at_threshold exact_ratio " Python "
  = fuzzy_fallback fallback_dataset exact_ratio "Python".
Proof.
  destruct (semantic_threshold fallback_dataset index_at_threshold exact_ratio
              " Python " "css" [] 0.6%Q [] eq_refl) as [_ Hbelow].
  destruct (Hbelow (Qle_refl 0.6%Q)) as (Hnone & Hfuzzy & _).
  split; [exact Hnone | exact Hfuzzy].
Defined.

(** The example of the specification, for whatever the three spellings
    resolve to. *)
Lemma normalize_python_sql_python
    (CAREER_DATASET : list Career)
    (query_skill : string -> nat -> Result (list string * list Q))
    (token_sort_ratio : string -> string -> Q) (p q : string) :
  resolve_skill CAREER_DATASET query_skill token_sort_ratio "Python" = p →
  resolve_skill CAREER_DATASET query_skill token_sort_ratio "python" = p →
  resolve_skill CAREER_DATASET query_skill token_sort_ratio "SQL" = q →
  p ≠ q →
  normalize_skills CAREER_DATASET query_skill token_sort_ratio ["Python"; "SQL"; "python"]
  = [p; q].
Proof.
  intros Hp1 Hp2 Hq Hne. unfold normalize_skills. cbn [map].
  rewrite Hp1, Hp2, Hq. cbn [dedupe app].
  rewrite decide_False by (intros H; by apply elem_of_nil in H).
  cbn [app].
  rewrite decide_False
    by (intros H; apply list_elem_of_singleton in H; congruence).
  cbn [app].
  rewrite decide_True by (apply elem_of_cons; by left).
  reflexivity.
Qed.

Example normalize_collapses_duplicates :
  normalize_skills fallback_dataset index_missing exact_ratio ["Python"; "SQL"; "python"]
  = ["python"; "sql"].
Proof. reflexivity. Qed.

Example normalize_without_vocabulary :
  normalize_skills [] index_missing exact_ratio [" Rust"; "SQL "; "rust"]
  = ["rust"; "sql"].
Proof. reflexivity. Qed.

(* ===================================================================== *)
(** ** Career matching *)
(* ===================================================================== *)



(** *** Substrings *)

Lemma append_cons (a : ascii) (s t : string) : String a s +:+ t = String a (s +:+ t).
Proof. reflexivity. Qed.

Lemma append_nil (t : string) : "" +:+ t = t.
Proof. reflexivity. Qed.

Lemma prefix_spec (s1 s2 : string) :
  String.prefix s1 s2 = true ↔ ∃ post, s2 = s1 +:+ post.
Proof.
  revert s1. induction s2 as [|b s2 IH]; intros [|a s1]; cbn [String.prefix].
  - split; [exists ""; reflexivity | reflexivity].
  - split; [discriminate | intros [post [=]]].
  - split; [intros _; eexists; reflexivity | reflexivity].
  - destruct (ascii_dec a b) as [->|Hne].
    + rewrite IH. split; intros [post Hp]; exists post;
        rewrite append_cons in *; congruence.
    + split; [discriminate|].
      intros [post Hp]. rewrite append_cons in Hp. congruence.
Qed.

Lemma contains_spec (needle hay : string) :
  PyStr.contains needle hay = true ↔ ∃ pre post, hay = pre +:+ needle +:+ post.
Proof.
  induction hay as [|b hay IH]; cbn [PyStr.contains];
    rewrite orb_true_iff, prefix_spec.
  - split.
    + intros [[post Hp]|[=]]. exists "", post. exact Hp.
    + intros ([|a pre] & post & Hp); [left; exists post; exact Hp|].
      rewrite append_cons in Hp. discriminate Hp.
  - rewrite IH. split.
    + intros [[post Hp]|(pre & post & Hp)].
      * exists "", post. exact Hp.
      * exists (String b pre), post. rewrite append_cons. congruence.
    + intros ([|a pre] & post & Hp).
      * left. exists post. exact Hp.
      * right. rewrite append_cons in Hp. injection Hp as -> Hp.
        exists pre, post. exact Hp.
Qed.

(** *** The score *)

Lemma max_1_len_or_1 (n : nat) : max 1 (len_or_1 n) = max 1 n.
Proof. unfold len_or_1. case_decide; lia. Qed.

Lemma Qdiv_of_nat (a b : nat) :
  0 < b →
  (inject_Z (Z.of_nat a) / inject_Z (Z.of_nat b) == Z.of_nat a # Pos.of_nat b)%Q.
Proof.
  intros Hb.
  rewrite (Qmake_Qdiv (Z.of_nat a) (Pos.of_nat b)).
  replace (Z.pos (Pos.of_nat b)) with (Z.of_nat b); [reflexivity|].
  rewrite <- (Nat2Pos.id b) at 1 by lia. apply positive_nat_Z.
Qed.

Lemma kw_bonus_hit (summary : option string) (c : Career) :
  (∃ k pre post, k ∈ take 5 (cskills_of c) ∧
     PyStr.lower (str_or summary "") = pre +:+ k +:+ post) →
  kw_bonus_of summary c = 0.2%Q.
Proof.
  intros (k & pre & post & Hk & Hs). unfold kw_bonus_of.
  replace (existsb _ _) with true; [reflexivity|].
  symmetry. apply existsb_exists. exists k. split.
  - apply list_elem_of_In. exact Hk.
  - apply contains_spec. eauto.
Qed.




Example score_of_repeated_skill :
  (score_of ["python"] None repeated_skill == 1 # 2)%Q.
Proof. vm_compute. reflexivity. Qed.

Example score_of_data_analyst :
  (score_of ["python"; "sql"] (Some "I enjoy SQL reports") data_analyst == 7 # 10)%Q.
Proof. vm_compute. reflexivity. Qed.

(** *** The stable sort *)

Section StableSortFacts.

Context {A K : Type}.
Variable ltb : K -> K -> bool.
Variable key : A -> K.

Hypothesis ltb_trans :
  ∀ x y z, ltb x y = true → ltb y z = true → ltb x z = true.
Hypothesis ltb_cotrans :
  ∀ x y z, ltb x y = false → ltb y z = false → ltb x z = false.

Lemma insert_desc_head (x : A) (l : list A) :
  head (insert_desc ltb key x l) =
    match l with
    | [] => Some x
    | y :: _ => if ltb (key x) (key y) then Some y else Some x
    end.
Proof. destruct l as [|y l]; cbn; [|destruct (ltb _ _)]; reflexivity. Qed.

Lemma sort_desc_nil (l : list A) : sort_desc ltb key l = [] → l = [].
Proof.
  destruct l as [|x l]; [reflexivity|].
  intros H. apply (f_equal head) in H.
  cbn [sort_desc foldr] in H. rewrite insert_desc_head in H.
  destruct (foldr _ _ l); [|destruct (ltb _ _)]; discriminate.
Qed.


End StableSortFacts.



(** *** Selection *)


Example tie_goes_to_the_first :
  select_top [data_analyst; frontend_developer] ["rust"] None = Ok data_analyst.
Proof. reflexivity. Qed.

Example higher_score_wins :
  select_top [data_analyst; frontend_developer] ["css"; "react"] None
  = Ok frontend_developer.
Proof. reflexivity. Qed.

(** *** The empty corpus *)


Lemma load_career_dataset_nonempty (file : option (list Career)) :
  load_career_dataset file ≠ [].
Proof. destruct file as [[|c l]|]; discriminate. Qed.

(** *** Rendering and export *)

Lemma compute_output_roadmaps
    (CAREER_DATASET : list Career)
    (query_skill : string -> nat -> Result (list string * list Q))
    (token_sort_ratio : string -> string -> Q)
    (user_input : UserInput) (g : Rng) (out : Output) :
  compute_output CAREER_DATASET query_skill token_sort_ratio user_input g = Ok out →
  map focus (out_roadmaps out) = focuses.
Proof.
  unfold compute_output.
  destruct (select_top _ _ _) as [top|e]; [|discriminate].
  cbn [mbind Result_bind].
  destruct (c_career top) as [name|] eqn:Ename; [|discriminate].
  intros [= <-]. cbn [out_roadmaps].
  unfold generate_distinct_roadmaps, focuses, for_each, bind, ret.
  repeat match goal with
         | |- context [generate_steps_for_career ?c ?s ?f ?b ?g0] =>
             destruct (generate_steps_for_career c s f b g0)
         end.
  reflexivity.
Qed.

Section ExportFacts.

Variable CAREER_DATASET : list Career.
Variable query_skill : string -> nat -> Result (list string * list Q).
Variable token_sort_ratio : string -> string -> Q.
Variable mkdir : string -> Result unit.
Variable render_png : string -> Roadmap -> Result unit.
Variable write_json : string -> Output -> Result unit.
Variable timestamp : string.

Local Abbreviation compute := (compute_output CAREER_DATASET query_skill token_sort_ratio).
Local Abbreviation generate :=
  (generate_roadmaps_for_user CAREER_DATASET query_skill token_sort_ratio mkdir
     render_png write_json timestamp).

(** C4, as amended: when the roadmap computation succeeds, the caller gets
    the complete output (the derived skills, the chosen career and the three
    roadmaps of the computation, with the image URLs added) exactly when
    plotting, both JSON writes and the creation of the outputs directory all
    succeed; when one of them raises, that exception reaches the caller and
    no output is returned. *)
Theorem export_failure_propagates (user_input : UserInput) (g : Rng) (out : Output) :
  compute user_input g = Ok out →
  let plot := _plot_roadmaps mkdir render_png (out_roadmaps out) "static/roadmaps" in
  (∀ e, plot = Raise e → generate user_input g = Raise e) ∧
  (∀ urls, plot = Ok urls →
     let out' := set_images out urls in
     let w1 := write_json "generated_roadmaps_output.json" out' in
     let md := mkdir "outputs" in
     let w2 := write_json ("outputs/roadmaps_" +:+ timestamp +:+ ".json") out' in
     (∀ e, w1 = Raise e → generate user_input g = Raise e) ∧
     (w1 = Ok () → ∀ e, md = Raise e → generate user_input g = Raise e) ∧
     (w1 = Ok () → md = Ok () → ∀ e, w2 = Raise e → generate user_input g = Raise e) ∧
     (w1 = Ok () → md = Ok () → w2 = Ok () →
        generate user_input g = Ok out' ∧
        out_derived_skills out' = out_derived_skills out ∧
        out_chosen_career out' = out_chosen_career out ∧
        out_roadmaps out' = out_roadmaps out ∧
        map focus (out_roadmaps out') = focuses)).
Proof.
  intros Hc plot. subst plot.
  unfold generate_roadmaps_for_user. rewrite Hc. cbn [mbind Result_bind].
  split.
  - intros e ->. reflexivity.
  - intros urls ->. cbn [mbind Result_bind].
    split; [|split; [|split]].
    + intros e ->. reflexivity.
    + intros -> e. cbn [mbind Result_bind]. intros ->. reflexivity.
    + intros ->. cbn [mbind Result_bind]. intros -> e.
      cbn [mbind Result_bind]. intros ->. reflexivity.
    + intros ->. cbn [mbind Result_bind]. intros ->.
      cbn [mbind Result_bind]. intros ->. repeat split.
      exact (compute_output_roadmaps _ _ _ _ _ _ Hc).
Qed.

End ExportFacts.

(** C4 fails as stated: with a renderer that raises, the computation of the
    request succeeds and the caller still gets the renderer's exception. *)
Lemma render_failure_loses_the_output :
  ¬ export_isolated fallback_dataset index_missing exact_ratio mkdir_ok render_down
      write_ok "20260101_000000" python_sql_request [].
Proof.
  intros H.
  destruct (H _ eq_refl) as (out' & Hgen & _).
  vm_compute in Hgen. discriminate Hgen.
Qed.

Lemma export_failure_propagates_witness :
  ∃ out,
    compute_output fallback_dataset index_missing exact_ratio python_sql_request [] = Ok out ∧
    generate_roadmaps_for_user fallback_dataset index_missing exact_ratio mkdir_ok
      render_ok write_ok "20260101_000000" python_sql_request []
    = Ok (set_images out ["/static/roadmaps/roadmap_1.png"; "/static/roadmaps/roadmap_2.png";
                          "/static/roadmaps/roadmap_3.png"]).
Proof.
  eexists. split; [reflexivity|].
  refine (proj1 (proj2 (proj2 (proj2 (proj2
    (export_failure_propagates fallback_dataset index_missing exact_ratio
       mkdir_ok render_ok write_ok "20260101_000000" python_sql_request [] _ eq_refl)
    _ eq_refl))) eq_refl eq_refl eq_refl)).
Defined.

Example end_to_end_data_analyst :
  match generate_roadmaps_for_user fallback_dataset index_missing exact_ratio mkdir_ok
          render_ok write_ok "20260101_000000" python_sql_request [] with
  | Ok out =>
      out_derived_skills out = ["python"; "sql"] ∧
      out_chosen_career out = "Data Analyst" ∧
      map path_title (out_roadmaps out) = ["Data Analyst"; "Data Analyst"; "Data Analyst"] ∧
      map focus (out_roadmaps out) = ["Depth"; "Fast-Entry"; "Transition"]
  | Raise _ => False
  end.
Proof. vm_compute. repeat split. Qed.

(* ===================================================================== *)
(** ** Further properties of the resolver *)
(* ===================================================================== *)

(** *** Case and white space *)

Lemma to_lower_idem (c : ascii) : PyStr.to_lower (PyStr.to_lower c) = PyStr.to_lower c.
Proof. destruct c as [[] [] [] [] [] [] [] []]; reflexivity. Qed.

Lemma to_upper_idem (c : ascii) : PyStr.to_upper (PyStr.to_upper c) = PyStr.to_upper c.
Proof. destruct c as [[] [] [] [] [] [] [] []]; reflexivity. Qed.

Lemma lower_idem (s : string) : PyStr.lower (PyStr.lower s) = PyStr.lower s.
Proof.
  unfold PyStr.lower. induction s as [|c s IH]; [reflexivity|].
  cbn [PyStr.map]. rewrite to_lower_idem, IH. reflexivity.
Qed.

Lemma upper_idem (s : string) : PyStr.upper (PyStr.upper s) = PyStr.upper s.
Proof.
  unfold PyStr.upper. induction s as [|c s IH]; [reflexivity|].
  cbn [PyStr.map]. rewrite to_upper_idem, IH. reflexivity.
Qed.

Lemma lstrip_no_leading_space (s : string) : no_leading_space (PyStr.lstrip s).
Proof.
  induction s as [|c s IH]; [exact I|].
  cbn [PyStr.lstrip]. destruct (PyStr.is_space c) eqn:E; [exact IH|exact E].
Qed.

Lemma lstrip_fixed (s : string) : no_leading_space s → PyStr.lstrip s = s.
Proof. destruct s as [|c s]; [reflexivity|]. cbn. intros ->. reflexivity. Qed.

Lemma rstrip_no_leading_space (s : string) :
  no_leading_space s → no_leading_space (PyStr.rstrip s).
Proof.
  destruct s as [|c s]; [exact (fun H => H)|].
  cbn [no_leading_space PyStr.rstrip]. intros Hc.
  destruct (PyStr.rstrip s); rewrite ?Hc; exact Hc.
Qed.

Lemma rstrip_cons (c : ascii) (s : string) :
  PyStr.rstrip (String c s) =
    match PyStr.rstrip s with
    | EmptyString => if PyStr.is_space c then EmptyString else String c EmptyString
    | r => String c r
    end.
Proof. reflexivity. Qed.

Lemma rstrip_idem (s : string) : PyStr.rstrip (PyStr.rstrip s) = PyStr.rstrip s.
Proof.
  induction s as [|c s IH]; [reflexivity|].
  rewrite rstrip_cons.
  destruct (PyStr.rstrip s) as [|c' r] eqn:E.
  - destruct (PyStr.is_space c) eqn:Ec; [reflexivity|].
    rewrite rstrip_cons. cbn [PyStr.rstrip]. rewrite Ec. reflexivity.
  - rewrite rstrip_cons, IH. reflexivity.
Qed.

Lemma strip_idem (s : string) : PyStr.strip (PyStr.strip s) = PyStr.strip s.
Proof.
  unfold PyStr.strip.
  rewrite (lstrip_fixed (PyStr.rstrip (PyStr.lstrip s))).
  - apply rstrip_idem.
  - apply rstrip_no_leading_space, lstrip_no_leading_space.
Qed.

(** *** The order of strings *)

Lemma ascii_compare_lt_trans (a b c : ascii) :
  Ascii.compare a b = Lt → Ascii.compare b c = Lt → Ascii.compare a c = Lt.
Proof. unfold Ascii.compare. rewrite !N.compare_lt_iff. lia. Qed.

Lemma ascii_compare_refl (a : ascii) : Ascii.compare a a = Eq.
Proof. unfold Ascii.compare. apply N.compare_refl. Qed.

Lemma string_compare_cons (a b : ascii) (s t : string) :
  String.compare (String a s) (String b t) =
    match Ascii.compare a b with
    | Eq => String.compare s t
    | ne => ne
    end.
Proof. reflexivity. Qed.

Lemma string_compare_lt_trans (s t u : string) :
  String.compare s t = Lt → String.compare t u = Lt → String.compare s u = Lt.
Proof.
  revert t u. induction s as [|a s IH]; intros [|b t] [|c u]; try done.
  rewrite !string_compare_cons.
  destruct (Ascii.compare a b) eqn:Eab; [|intros _|done].
  - apply Ascii.compare_eq_iff in Eab as ->.
    destruct (Ascii.compare b c) eqn:Ebc; [apply IH|done|done].
  - destruct (Ascii.compare b c) eqn:Ebc; [|intros _|done].
    + apply Ascii.compare_eq_iff in Ebc as <-. rewrite Eab. done.
    + rewrite (ascii_compare_lt_trans _ _ _ Eab Ebc). done.
Qed.

Lemma string_compare_lt_irrefl (s : string) : String.compare s s ≠ Lt.
Proof.
  induction s as [|a s IH]; [done|].
  rewrite string_compare_cons, ascii_compare_refl. exact IH.
Qed.

Lemma string_compare_gt_lt (s t : string) :
  String.compare s t = Gt → String.compare t s = Lt.
Proof. intros H. rewrite String.compare_antisym, H. reflexivity. Qed.

Lemma ordered_cons {A : Type} (R : A -> A -> Prop) (x : A) (l : list A) :
  ordered R (x :: l) ↔ (∀ y, y ∈ l → R x y) ∧ ordered R l.
Proof.
  unfold ordered. split.
  - intros H. split.
    + intros y [k Hk]%list_elem_of_lookup. apply (H 0 (S k)); [done|done|lia].
    + intros i j a b Hi Hj Hij. apply (H (S i) (S j)); [done|done|lia].
  - intros [Hx Hl] [|i] [|j] a b Hi Hj Hij; try lia; cbn in Hi, Hj.
    + simplify_eq. apply Hx. eapply list_elem_of_lookup_2; eauto.
    + apply (Hl i j); [done|done|lia].
Qed.

Lemma ordered_nil {A : Type} (R : A -> A -> Prop) : ordered R [].
Proof. intros i j x y Hi. rewrite lookup_nil in Hi. done. Qed.

Lemma insert_sorted_elem_of (x y : string) (l : list string) :
  y ∈ insert_sorted x l ↔ y = x ∨ y ∈ l.
Proof.
  induction l as [|z l IH]; cbn [insert_sorted].
  - rewrite list_elem_of_singleton, elem_of_nil. tauto.
  - destruct (String.compare x z) eqn:E.
    + apply String.compare_eq_iff in E as ->. rewrite elem_of_cons. tauto.
    + rewrite !elem_of_cons. tauto.
    + rewrite !elem_of_cons, IH. tauto.
Qed.

Lemma insert_sorted_ascending (x : string) (l : list string) :
  ascending l → ascending (insert_sorted x l).
Proof.
  induction l as [|z l IH]; cbn [insert_sorted]; intros Hl.
  - apply ordered_cons. split; [|apply ordered_nil].
    intros y Hy. by apply elem_of_nil in Hy.
  - destruct (String.compare x z) eqn:E; [exact Hl| |].
    + apply ordered_cons. split; [|exact Hl].
      apply ordered_cons in Hl as [Hz _].
      intros y [->|Hy]%elem_of_cons; [exact E|].
      eapply string_compare_lt_trans; [exact E|by apply Hz].
    + apply ordered_cons in Hl as [Hz Hl].
      apply ordered_cons. split; [|by apply IH].
      intros y [->|Hy]%insert_sorted_elem_of; [|by apply Hz].
      by apply string_compare_gt_lt.
Qed.

Lemma sorted_set_elem_of (x : string) (l : list string) :
  x ∈ sorted_set l ↔ x ∈ l.
Proof.
  unfold sorted_set. induction l as [|y l IH]; cbn [foldr]; [done|].
  rewrite insert_sorted_elem_of, IH, elem_of_cons. tauto.
Qed.

Lemma sorted_set_ascending (l : list string) : ascending (sorted_set l).
Proof.
  unfold sorted_set. induction l as [|y l IH]; cbn [foldr].
  - apply ordered_nil.
  - by apply insert_sorted_ascending.
Qed.

Lemma ascending_NoDup (l : list string) : ascending l → NoDup l.
Proof.
  intros H. apply NoDup_alt. intros i j x Hi Hj.
  destruct (Nat.lt_trichotomy i j) as [Hlt|[->|Hlt]]; [|done|]; exfalso.
  - exact (string_compare_lt_irrefl x (H i j x x Hi Hj Hlt)).
  - exact (string_compare_lt_irrefl x (H j i x x Hj Hi Hlt)).
Qed.

(** *** More on the dedupe loop *)

Lemma dedupe_prefix (normalized seen : list string) :
  seen `prefix_of` dedupe seen normalized.
Proof.
  revert seen. induction normalized as [|y rest IH]; intros seen; cbn [dedupe].
  - reflexivity.
  - case_decide; [apply IH|].
    etrans; [|apply IH]. by apply prefix_app_r.
Qed.

Lemma dedupe_app (l l' seen : list string) :
  dedupe seen (l ++ l') = dedupe (dedupe seen l) l'.
Proof.
  revert seen. induction l as [|y l IH]; intros seen; cbn [dedupe app]; [done|].
  case_decide; apply IH.
Qed.

Lemma dedupe_absorb (l seen : list string) :
  (∀ x, x ∈ l → x ∈ seen) → dedupe seen l = seen.
Proof.
  induction l as [|y l IH]; intros Hl; cbn [dedupe]; [done|].
  rewrite decide_True by (apply Hl; by left).
  apply IH. intros x Hx. apply Hl. by right.
Qed.

Lemma dedupe_length (l seen : list string) :
  length (dedupe seen l) ≤ length seen + length l.
Proof.
  revert seen. induction l as [|y l IH]; intros seen; cbn [dedupe length]; [lia|].
  case_decide.
  - specialize (IH seen). lia.
  - specialize (IH (seen ++ [y])). rewrite length_app in IH. cbn in IH. lia.
Qed.

Section MoreResolverFacts.

Variable CAREER_DATASET : list Career.
Variable query_skill : string -> nat -> Result (list string * list Q).
Variable token_sort_ratio : string -> string -> Q.

Local Abbreviation vocab := (SKILL_VOCAB CAREER_DATASET).
Local Abbreviation fuzzy := (fuzzy_fallback CAREER_DATASET token_sort_ratio).
Local Abbreviation resolve := (resolve_skill CAREER_DATASET query_skill token_sort_ratio).
Local Abbreviation normalize := (normalize_skills CAREER_DATASET query_skill token_sort_ratio).

Lemma SKILL_VOCAB_elem_of (x : string) :
  x ∈ vocab ↔
  ∃ c s, c ∈ CAREER_DATASET ∧ s ∈ get (c_skills c) [] ∧ x = PyStr.lower s.
Proof.
  unfold SKILL_VOCAB.
  destruct CAREER_DATASET as [|c0 rest] eqn:E.
  - split; [intros H; by apply elem_of_nil in H|].
    intros (c & s & Hc & _). by apply elem_of_nil in Hc.
  - rewrite <- E. rewrite sorted_set_elem_of, list_elem_of_bind. split.
    + intros (c & (s & -> & Hs)%list_elem_of_fmap & Hc). eauto.
    + intros (c & s & Hc & Hs & ->). exists c. split; [|exact Hc].
      apply list_elem_of_fmap. eauto.
Qed.

Lemma SKILL_VOCAB_ascending : ascending vocab.
Proof.
  unfold SKILL_VOCAB. destruct CAREER_DATASET; [apply ordered_nil|].
  apply sorted_set_ascending.
Qed.

(** X1: the vocabulary holds exactly the lower-cased skills of the corpus,
    each once, in strictly ascending order; every token is its own lower
    case. *)
Theorem skill_vocabulary_sorted_set :
  (∀ x, x ∈ SKILL_VOCAB CAREER_DATASET ↔
        ∃ c s, c ∈ CAREER_DATASET ∧ s ∈ get (c_skills c) [] ∧ x = PyStr.lower s) ∧
  ascending (SKILL_VOCAB CAREER_DATASET) ∧
  NoDup (SKILL_VOCAB CAREER_DATASET) ∧
  (∀ x, x ∈ SKILL_VOCAB CAREER_DATASET → PyStr.lower x = x).
Proof.
  split; [exact SKILL_VOCAB_elem_of|].
  split; [exact SKILL_VOCAB_ascending|].
  split; [apply ascending_NoDup, SKILL_VOCAB_ascending|].
  intros x (c & s & _ & _ & ->)%SKILL_VOCAB_elem_of. apply lower_idem.
Qed.

Lemma extractOne_first (query : string) (choices : list string) (c : string) (sc : Q) :
  extractOne token_sort_ratio query choices = Some (c, sc) →
  ∃ l1 l2,
    choices = l1 ++ c :: l2 ∧
    Forall (fun v => (token_sort_ratio query v < sc)%Q) l1.
Proof.
  revert c sc. induction choices as [|x rest IH]; intros c sc; [done|].
  cbn [extractOne].
  destruct (extractOne token_sort_ratio query rest) as [[c1 sc1]|] eqn:E.
  - destruct (Qgtb sc1 (token_sort_ratio query x)) eqn:Hcmp; intros [= <- <-].
    + destruct (IH c1 sc1 eq_refl) as (l1 & l2 & -> & H1).
      exists (x :: l1), l2. split; [done|].
      constructor; [by apply Qgtb_gt|exact H1].
    + exists [], rest. split; [done|constructor].
  - intros [= <- <-]. exists [], rest. split; [done|constructor].
Qed.

(** X2: with a non-empty vocabulary the fuzzy path returns the first
    vocabulary token of maximal token-sort ratio: every token before it
    scores strictly less, none scores more, and a token that scores as much
    comes later in the alphabet. *)
Theorem fuzzy_fallback_first_best (s : string) :
  SKILL_VOCAB CAREER_DATASET ≠ [] →
  let best := fuzzy_fallback CAREER_DATASET token_sort_ratio s in
  ∃ before after,
    SKILL_VOCAB CAREER_DATASET = before ++ best :: after ∧
    Forall (fun v => (token_sort_ratio s v < token_sort_ratio s best)%Q) before ∧
    Forall (fun v => (token_sort_ratio s v <= token_sort_ratio s best)%Q) after ∧
    (∀ v, v ∈ SKILL_VOCAB CAREER_DATASET →
          (token_sort_ratio s best <= token_sort_ratio s v)%Q →
          v = best ∨ String.compare best v = Lt).
Proof.
  intros Hne best. subst best.
  pose proof SKILL_VOCAB_ascending as Hasc.
  unfold fuzzy_fallback in *.
  destruct (extractOne token_sort_ratio s vocab) as [[c sc]|] eqn:E;
    [|apply extractOne_None in E; contradiction].
  destruct (extractOne_best _ _ _ _ _ E) as (_ & -> & Hmax).
  destruct (extractOne_first _ _ _ _ E) as (before & after & Hsplit & Hbefore).
  cbn [fst].
  exists before, after. split; [exact Hsplit|]. split; [exact Hbefore|].
  assert (Hafter : ∀ v, v ∈ after → String.compare c v = Lt).
  { intros v [k Hk]%list_elem_of_lookup.
    apply (Hasc (length before) (length before + S k)); [| |lia]; rewrite Hsplit.
    - rewrite lookup_app_r by lia. by rewrite Nat.sub_diag.
    - rewrite lookup_app_r by lia.
      replace (length before + S k - length before) with (S k) by lia. exact Hk. }
  split.
  - apply Forall_forall. intros v Hv. apply Hmax. rewrite Hsplit.
    apply elem_of_app. right. by right.
  - intros v Hv Hle. rewrite Hsplit in Hv.
    apply elem_of_app in Hv as [Hv|[->|Hv]%elem_of_cons].
    + exfalso. rewrite Forall_forall in Hbefore.
      exact (Qlt_not_le _ _ (Hbefore v Hv) Hle).
    + by left.
    + right. by apply Hafter.
Qed.

(** X3: white space around a raw skill never matters: a skill and its
    trimmed form get the same token, and trimming a whole batch first leaves
    the result as it is. *)
Theorem resolve_ignores_surrounding_space (raw_skills : list string) :
  (∀ raw, resolve_skill CAREER_DATASET query_skill token_sort_ratio (PyStr.strip raw)
          = resolve_skill CAREER_DATASET query_skill token_sort_ratio raw) ∧
  normalize_skills CAREER_DATASET query_skill token_sort_ratio (map PyStr.strip raw_skills)
  = normalize_skills CAREER_DATASET query_skill token_sort_ratio raw_skills.
Proof.
  assert (H : ∀ raw, resolve (PyStr.strip raw) = resolve raw).
  { intros raw. unfold resolve_skill. rewrite strip_idem. reflexivity. }
  split; [exact H|].
  unfold normalize_skills. f_equal.
  rewrite map_map. apply map_ext. exact H.
Qed.

(** X4: every token the resolver returns comes from one of its three
    sources: a neighbour the index gave for some input skill with a
    similarity above 0.6, a token of the vocabulary, or, when there is no
    vocabulary, the trimmed input skill in lower case. *)
Theorem normalize_skills_origin (raw_skills : list string) (x : string) :
  x ∈ normalize_skills CAREER_DATASET query_skill token_sort_ratio raw_skills →
  ∃ raw, raw ∈ raw_skills ∧
    ((∃ nn d0 d,
        query_skill (PyStr.strip raw) 1 = Ok (x :: nn, d0 :: d) ∧ (0.6 < d0)%Q)
     ∨ x ∈ SKILL_VOCAB CAREER_DATASET
     ∨ (SKILL_VOCAB CAREER_DATASET = [] ∧ x = PyStr.lower (PyStr.strip raw))).
Proof.
  unfold normalize_skills. rewrite dedupe_elem_of, elem_of_nil.
  intros [[]|(raw & -> & Hraw)%list_elem_of_fmap].
  exists raw. split; [exact Hraw|].
  unfold resolve_skill.
  destruct (try_semantic query_skill (PyStr.strip raw)) as [tok|] eqn:Et.
  - left. unfold try_semantic in Et.
    destruct (query_skill (PyStr.strip raw) 1) as [[nn d]|e]; [|done].
    destruct d as [|d0 d]; [done|].
    destruct (Qgtb d0 0.6) eqn:Hgt; [|done].
    destruct nn as [|nn0 nn]; [done|]. injection Et as ->.
    exists nn, d0, d. split; [done|]. by apply Qgtb_gt.
  - right. destruct (decide (vocab = [])) as [Hv|Hv].
    + right. split; [exact Hv|]. by apply fuzzy_fallback_empty.
    + left. by apply fuzzy_fallback_best.
Qed.

(** X5: the resolver's output is never longer than its input; appending
    skills to a batch only appends tokens to its result; and resolving a
    batch written twice in a row gives the result of the batch. *)
Theorem normalize_skills_grows (raw_skills more : list string) :
  length (normalize_skills CAREER_DATASET query_skill token_sort_ratio raw_skills)
    ≤ length raw_skills ∧
  normalize_skills CAREER_DATASET query_skill token_sort_ratio raw_skills
    `prefix_of` normalize_skills CAREER_DATASET query_skill token_sort_ratio
                  (raw_skills ++ more) ∧
  normalize_skills CAREER_DATASET query_skill token_sort_ratio (raw_skills ++ raw_skills)
    = normalize_skills CAREER_DATASET query_skill token_sort_ratio raw_skills.
Proof.
  unfold normalize_skills. split; [|split].
  - etrans; [apply dedupe_length|]. cbn. by rewrite length_map.
  - rewrite map_app, dedupe_app. apply dedupe_prefix.
  - rewrite map_app, dedupe_app. apply dedupe_absorb.
    intros x Hx. apply dedupe_elem_of. by right.
Qed.

End MoreResolverFacts.

Lemma normalize_skills_origin_witness :
  ∃ raw, raw ∈ [" Python "; "SQL"] ∧
    ((∃ nn d0 d,
        index_missing (PyStr.strip raw) 1 = Ok ("python" :: nn, d0 :: d) ∧ (0.6 < d0)%Q)
     ∨ "python" ∈ SKILL_VOCAB fallback_dataset
     ∨ (SKILL_VOCAB fallback_dataset = [] ∧ "python" = PyStr.lower (PyStr.strip raw))).
Proof.
  apply (normalize_skills_origin fallback_dataset index_missing exact_ratio
           [" Python "; "SQL"] "python").
  apply (bool_decide_unpack _). vm_compute. exact I.
Defined.

Lemma fuzzy_fallback_first_best_witness :
  ∃ before after,
    SKILL_VOCAB fallback_dataset
      = before ++ fuzzy_fallback fallback_dataset exact_ratio "zzz" :: after ∧
    Forall (fun v => (exact_ratio "zzz" v
                      < exact_ratio "zzz" (fuzzy_fallback fallback_dataset exact_ratio "zzz"))%Q)
      before ∧
    Forall (fun v => (exact_ratio "zzz" v
                      <= exact_ratio "zzz" (fuzzy_fallback fallback_dataset exact_ratio "zzz"))%Q)
      after ∧
    (∀ v, v ∈ SKILL_VOCAB fallback_dataset →
          (exact_ratio "zzz" (fuzzy_fallback fallback_dataset exact_ratio "zzz")
           <= exact_ratio "zzz" v)%Q →
          v = fuzzy_fallback fallback_dataset exact_ratio "zzz"
          ∨ String.compare (fuzzy_fallback fallback_dataset exact_ratio "zzz") v = Lt).
Proof.
  apply (fuzzy_fallback_first_best fallback_dataset exact_ratio "zzz").
  discriminate.
Defined.

Example unmatched_skill_takes_first_token :
  fuzzy_fallback fallback_dataset exact_ratio "zzz" = "css".
Proof. reflexivity. Qed.

(* ===================================================================== *)
(** ** Further properties of the matcher *)
(* ===================================================================== *)

(** *** The stable sort as a whole *)

Section SortDescFacts.

Context {A K : Type}.
Variable ltb : K -> K -> bool.
Variable key : A -> K.

Lemma insert_desc_Permutation (x : A) (l : list A) :
  insert_desc ltb key x l ≡ₚ x :: l.
Proof.
  induction l as [|y l IH]; cbn [insert_desc]; [done|].
  destruct (ltb (key x) (key y)); [|done].
  rewrite IH. apply Permutation_swap.
Qed.

Lemma sort_desc_Permutation (l : list A) : sort_desc ltb key l ≡ₚ l.
Proof.
  unfold sort_desc. induction l as [|x l IH]; cbn [foldr]; [done|].
  rewrite insert_desc_Permutation. by f_equiv.
Qed.



Hypothesis ltb_irrefl : ∀ x, ltb x x = false.
Hypothesis ltb_trans :
  ∀ x y z, ltb x y = true → ltb y z = true → ltb x z = true.
Hypothesis ltb_cotrans :
  ∀ x y z, ltb x y = false → ltb y z = false → ltb x z = false.

Lemma ltb_asym (x y : K) : ltb x y = true → ltb y x = false.
Proof.
  intros Hxy. destruct (ltb y x) eqn:Hyx; [|done].
  rewrite <- (ltb_irrefl x). symmetry. by apply (ltb_trans x y x).
Qed.

Lemma insert_desc_ordered (x : A) (l : list A) :
  ordered (fun a b => ltb (key a) (key b) = false) l →
  ordered (fun a b => ltb (key a) (key b) = false) (insert_desc ltb key x l).
Proof.
  induction l as [|y l IH]; cbn [insert_desc]; intros Hl.
  - apply ordered_cons. split; [|apply ordered_nil].
    intros z Hz. by apply elem_of_nil in Hz.
  - apply ordered_cons in Hl as Hl'. destruct Hl' as [Hy Hl'].
    destruct (ltb (key x) (key y)) eqn:E.
    + apply ordered_cons. split; [|by apply IH].
      intros z Hz. rewrite insert_desc_Permutation in Hz.
      apply elem_of_cons in Hz as [->|Hz]; [by apply ltb_asym|by apply Hy].
    + apply ordered_cons. split; [|exact Hl].
      intros z [->|Hz]%elem_of_cons; [exact E|].
      eapply ltb_cotrans; [exact E|by apply Hy].
Qed.

Lemma sort_desc_ordered (l : list A) :
  ordered (fun a b => ltb (key a) (key b) = false) (sort_desc ltb key l).
Proof.
  unfold sort_desc. induction l as [|x l IH]; cbn [foldr].
  - apply ordered_nil.
  - by apply insert_desc_ordered.
Qed.

End SortDescFacts.


Lemma Nat_ltb_trans (x y z : nat) :
  Nat.ltb x y = true → Nat.ltb y z = true → Nat.ltb x z = true.
Proof. rewrite !Nat.ltb_lt. lia. Qed.

Lemma Nat_ltb_cotrans (x y z : nat) :
  Nat.ltb x y = false → Nat.ltb y z = false → Nat.ltb x z = false.
Proof. rewrite !Nat.ltb_ge. lia. Qed.


(** *** More on the score *)

Lemma size_list_to_set_le (l : list string) :
  size (list_to_set l : gset string) ≤ length l.
Proof.
  induction l as [|x l IH]; [by rewrite list_to_set_nil, size_empty|].
  rewrite list_to_set_cons, size_union_alt, size_singleton. cbn [length].
  pose proof (subseteq_size (list_to_set l ∖ {[x]}) (list_to_set l : gset string)) as H.
  assert (Hsub : list_to_set l ∖ {[x]} ⊆ (list_to_set l : gset string)).
  { intros y. rewrite elem_of_difference. tauto. }
  specialize (H Hsub). lia.
Qed.

Lemma overlap_of_le (skills : list string) (c : Career) :
  overlap_of skills c ≤ length (cskills_of c).
Proof.
  unfold overlap_of.
  etrans; [apply subseteq_size, intersection_subseteq_r|apply size_list_to_set_le].
Qed.

Lemma overlap_of_mono (skills skills' : list string) (c : Career) :
  (∀ x, x ∈ skills → x ∈ skills') → overlap_of skills c ≤ overlap_of skills' c.
Proof.
  intros Hsub. unfold overlap_of. apply subseteq_size.
  apply intersection_mono_r. intros x. rewrite !elem_of_list_to_set. apply Hsub.
Qed.

Lemma score_of_as_fraction (skills : list string) (summary : option string) (c : Career) :
  (score_of skills summary c ==
     (Z.of_nat (overlap_of skills c) # Pos.of_nat (max 1 (length (cskills_of c))))
     + kw_bonus_of summary c)%Q.
Proof.
  unfold score_of. rewrite max_1_len_or_1, Qdiv_of_nat by lia. reflexivity.
Qed.

Lemma kw_bonus_of_cases (summary : option string) (c : Career) :
  kw_bonus_of summary c = 0%Q ∨ kw_bonus_of summary c = 0.2%Q.
Proof. unfold kw_bonus_of. destruct (existsb _ _); auto. Qed.

Lemma fraction_le_1 (a d : nat) : a ≤ d → 0 < d → (Z.of_nat a # Pos.of_nat d <= 1)%Q.
Proof.
  intros Had Hd. unfold Qle. cbn [Qnum Qden].
  rewrite Z.mul_1_r, Z.mul_1_l.
  rewrite <- (positive_nat_Z (Pos.of_nat d)), Nat2Pos.id by lia. lia.
Qed.

Lemma fraction_mono (a b : nat) (p : positive) :
  a ≤ b → (Z.of_nat a # p <= Z.of_nat b # p)%Q.
Proof. intros Hab. unfold Qle. cbn [Qnum Qden]. nia. Qed.

(** X7: the score of an occupation lies between 0 and 1.2; an occupation
    without skills scores 0 whatever the input; an occupation with the empty
    string among its first five skills gets the keyword bonus for every
    summary, as the empty string is a substring of every text. *)
Theorem score_of_bounds (skills : list string) (summary : option string) (c : Career) :
  (0 <= score_of skills summary c)%Q ∧
  (score_of skills summary c <= 12 # 10)%Q ∧
  (get (c_skills c) [] = [] → score_of skills summary c == 0)%Q ∧
  ("" ∈ take 5 (cskills_of c) → kw_bonus_of summary c = 0.2%Q
                                ∧ (2 # 10 <= score_of skills summary c)%Q).
Proof.
  pose proof (overlap_of_le skills c) as Hov.
  assert (Hfrac0 : (0 <= Z.of_nat (overlap_of skills c)
                         # Pos.of_nat (max 1 (length (cskills_of c))))%Q).
  { unfold Qle. cbn [Qnum Qden]. lia. }
  assert (Hfrac1 : (Z.of_nat (overlap_of skills c)
                    # Pos.of_nat (max 1 (length (cskills_of c))) <= 1)%Q).
  { apply fraction_le_1; lia. }
  split; [|split; [|split]].
  - rewrite score_of_as_fraction.
    destruct (kw_bonus_of_cases summary c) as [->| ->].
    + rewrite Qplus_0_r. exact Hfrac0.
    + apply (Qplus_le_compat 0 _ 0); [exact Hfrac0|done].
  - rewrite score_of_as_fraction.
    destruct (kw_bonus_of_cases summary c) as [->| ->].
    + rewrite Qplus_0_r. eapply Qle_trans; [exact Hfrac1|done].
    + eapply Qle_trans; [apply Qplus_le_compat; [exact Hfrac1|apply Qle_refl]|done].
  - intros Hnone. rewrite score_of_as_fraction.
    unfold overlap_of, kw_bonus_of, cskills_of. rewrite Hnone.
    cbn [map take existsb list_to_set foldr].
    rewrite intersection_empty_r_L, size_empty. reflexivity.
  - intros Hempty.
    assert (Hb : kw_bonus_of summary c = 0.2%Q).
    { apply kw_bonus_hit. exists "", "", (PyStr.lower (str_or summary "")).
      split; [exact Hempty|reflexivity]. }
    split; [exact Hb|].
    rewrite score_of_as_fraction, Hb.
    apply (Qplus_le_compat 0 _ (2 # 10)); [exact Hfrac0|done].
Qed.

(** X8: the score never goes down when skills are added to the resolved
    set, and it depends on the resolved skills as a set only: order and
    repeats do not matter. *)
Theorem score_of_monotone (skills skills' : list string) (summary : option string)
    (c : Career) :
  (∀ x, x ∈ skills → x ∈ skills') →
  (score_of skills summary c <= score_of skills' summary c)%Q ∧
  ((∀ x, x ∈ skills' → x ∈ skills) →
   score_of skills summary c = score_of skills' summary c).
Proof.
  intros Hsub. split.
  - rewrite !score_of_as_fraction.
    apply Qplus_le_compat; [|apply Qle_refl].
    apply fraction_mono. by apply overlap_of_mono.
  - intros Hsup. unfold score_of, overlap_of.
    replace (list_to_set skills : gset string) with (list_to_set skills' : gset string);
      [reflexivity|].
    apply set_eq. intros x. rewrite !elem_of_list_to_set. split; auto.
Qed.

Lemma score_of_monotone_witness :
  (score_of ["python"] None data_analyst
   <= score_of ["sql"; "python"; "sql"] None data_analyst)%Q.
Proof.
  apply (score_of_monotone ["python"] ["sql"; "python"; "sql"] None data_analyst).
  intros x ->%list_elem_of_singleton. apply (bool_decide_unpack _). vm_compute. exact I.
Defined.

(** X9: with the corpus as the module initialises it from the data file, the
    matcher always returns an occupation of the corpus: the fallback
    occupations stand in for a missing, unreadable or empty file, so the
    empty-corpus error cannot arise. *)
Theorem select_top_after_loading (file : option (list Career)) (skills : list string)
    (summary : option string) :
  (∃ c, select_top (load_career_dataset file) skills summary = Ok c ∧
        c ∈ load_career_dataset file) ∧
  (file = None ∨ file = Some [] → load_career_dataset file = fallback_dataset) ∧
  (∀ c l, file = Some (c :: l) → load_career_dataset file = c :: l).
Proof.
  split; [|split; [intros [->| ->]; reflexivity|intros c l ->; reflexivity]].
  pose proof (load_career_dataset_nonempty file) as Hne.
  unfold select_top, scored_of.
  destruct (sort_desc Qltb snd _) as [|[c sc] r] eqn:Es.
  - apply sort_desc_nil in Es. apply map_eq_nil in Es. contradiction.
  - exists c. split; [reflexivity|].
    assert (Hin : (c, sc) ∈ (c, sc) :: r) by (by left).
    rewrite <- Es, sort_desc_Permutation in Hin.
    apply list_elem_of_fmap in Hin as (c' & [= -> _] & Hc'). exact Hc'.
Qed.

(* ===================================================================== *)
(** ** The quiz *)
(* ===================================================================== *)

(** *** The quiz tally *)

Lemma tally_keys (t : list (string * nat)) (x : string) :
  map fst (tally t x) =
    if decide (x ∈ map fst t) then map fst t else map fst t ++ [x].
Proof.
  induction t as [|[k n] t IH]; cbn [tally map fst app].
  - rewrite decide_False by (intros H; by apply elem_of_nil in H). done.
  - destruct (String.eqb_spec k x) as [->|Hne]; cbn [map fst].
    + rewrite decide_True by (by left). done.
    + rewrite IH. destruct (decide (x ∈ map fst t)) as [Hx|Hx].
      * rewrite decide_True by (by right). done.
      * rewrite decide_False; [done|].
        intros [->|H]%elem_of_cons; contradiction.
Qed.

Lemma foldl_tally_keys (l : list string) (t : list (string * nat)) :
  map fst (foldl tally t l) = dedupe (map fst t) l.
Proof.
  revert t. induction l as [|x l IH]; intros t; cbn [foldl dedupe]; [done|].
  rewrite IH, tally_keys. by destruct (decide (x ∈ map fst t)).
Qed.

Lemma tally_elem_of (t : list (string * nat)) (x k : string) (n : nat) :
  NoDup (map fst t) →
  (k, n) ∈ tally t x →
  (k ≠ x ∧ (k, n) ∈ t) ∨
  (k = x ∧ ((∃ n0, ((x, n0) ∈ t ∧ n = n0 + 1)) ∨ ((x ∉ map fst t) ∧ n = 1))).
Proof.
  induction t as [|[k0 n0] t IH]; cbn [tally map fst]; intros Hnd Hin.
  - apply list_elem_of_singleton in Hin as [= -> ->]. right. split; [done|].
    right. split; [|done]. intros H; by apply elem_of_nil in H.
  - apply NoDup_cons in Hnd as [Hk0 Hnd].
    destruct (String.eqb_spec k0 x) as [->|Hne].
    + apply elem_of_cons in Hin as [[= -> ->]|Hin].
      * right. split; [done|]. left. exists n0. split; [by left|done].
      * left. split; [|by right].
        intros ->. apply Hk0. apply list_elem_of_fmap. by exists (x, n).
    + apply elem_of_cons in Hin as [[= -> ->]|Hin].
      * left. split; [done|by left].
      * destruct (IH Hnd Hin) as [[Hkx Hkn]|[-> [(m & Hm & ->)|[Hx ->]]]].
        -- left. split; [done|by right].
        -- right. split; [done|]. left. exists m. split; [by right|done].
        -- right. split; [done|]. right. split; [|done].
           intros [->|H]%elem_of_cons; contradiction.
Qed.

Lemma occ_cons (k x : string) (l : list string) :
  occ k (x :: l) = (if decide (x = k) then 1 else 0) + occ k l.
Proof. unfold occ. rewrite filter_cons. by destruct (decide (x = k)). Qed.

Lemma foldl_tally_count (l : list string) (t : list (string * nat)) (k : string) (n : nat) :
  NoDup (map fst t) →
  (k, n) ∈ foldl tally t l →
  ∃ n0, (((k, n0) ∈ t ∨ ((k ∉ map fst t) ∧ n0 = 0)) ∧ n = n0 + occ k l).
Proof.
  revert t. induction l as [|x l IH]; intros t Hnd Hin; cbn [foldl] in Hin.
  - exists n. split; [by left|]. unfold occ. cbn. lia.
  - assert (Hnd' : NoDup (map fst (tally t x))).
    { rewrite tally_keys. destruct (decide (x ∈ map fst t)); [done|].
      apply NoDup_app. split; [done|]. split; [|apply NoDup_singleton].
      intros y Hy ->%list_elem_of_singleton. contradiction. }
    destruct (IH _ Hnd' Hin) as (n1 & Hn1 & ->).
    rewrite occ_cons.
    destruct Hn1 as [Hn1|[Hk ->]].
    + destruct (tally_elem_of t x k n1 Hnd Hn1)
        as [[Hkx Hkn]|[-> [(m & Hm & ->)|[Hx ->]]]].
      * exists n1. split; [by left|]. rewrite decide_False by done. lia.
      * exists m. split; [by left|]. rewrite decide_True by done. lia.
      * exists 0. split; [by right|]. rewrite decide_True by done. lia.
    + exists 0. rewrite tally_keys in Hk.
      destruct (decide (x ∈ map fst t)) as [Hx|Hx].
      * split; [by right|]. rewrite decide_False by (intros ->; contradiction). lia.
      * rewrite elem_of_app, list_elem_of_singleton in Hk.
        split; [right; split; [tauto|done]|].
        rewrite decide_False by (intros ->; tauto). lia.
Qed.

Lemma type_to_skills_NoDup (t : string) : NoDup (type_to_skills t).
Proof.
  unfold type_to_skills.
  repeat match goal with |- context [String.eqb ?a ?b] => destruct (String.eqb a b) end;
    apply (bool_decide_unpack _); vm_compute; exact I.
Qed.

Lemma occ_NoDup (k : string) (l : list string) :
  NoDup l → occ k l = if decide (k ∈ l) then 1 else 0.
Proof.
  induction 1 as [|x l Hx Hnd IH]; [done|].
  rewrite occ_cons, IH.
  destruct (decide (x = k)) as [->|Hne].
  - rewrite decide_False by done. rewrite decide_True by (by left). done.
  - destruct (decide (k ∈ l)) as [Hk|Hk].
    + rewrite decide_True by (by right). done.
    + rewrite decide_False; [done|]. intros [->|H]%elem_of_cons; contradiction.
Qed.

Lemma occ_app (k : string) (l l' : list string) : occ k (l ++ l') = occ k l + occ k l'.
Proof. unfold occ. by rewrite filter_app, length_app. Qed.

Lemma occ_answered_skills (x : string) (answers : list (option string)) :
  occ x (answered_skills answers) = votes x answers.
Proof.
  unfold answered_skills, votes.
  induction answers as [|ans answers IH]; [done|].
  cbn [mbind list_bind]. rewrite occ_app, IH, filter_cons.
  rewrite occ_NoDup by apply type_to_skills_NoDup.
  unfold cluster_of at 1 3. by destruct (decide (x ∈ _)).
Qed.

Lemma tallied_as_foldl (answers : list (option string)) (acc : list (string * nat)) :
  foldl (fun acc ans => foldl tally acc (type_to_skills (PyStr.upper (str_or ans ""))))
        acc answers
  = foldl tally acc (answered_skills answers).
Proof.
  revert acc. unfold answered_skills.
  induction answers as [|ans answers IH]; intros acc; [done|].
  cbn [foldl mbind list_bind]. rewrite foldl_app, IH. done.
Qed.

Lemma derive_as_sorted_tally (answers : option (list (option string))) :
  _derive_skills_from_quiz answers
  = map fst (take 8 (sort_desc Nat.ltb snd
                       (foldl tally [] (answered_skills (get answers []))))).
Proof. unfold _derive_skills_from_quiz. by rewrite tallied_as_foldl. Qed.

Lemma derived_keys_NoDup (answers : list (option string)) :
  NoDup (map fst (foldl tally [] (answered_skills answers))).
Proof. rewrite foldl_tally_keys. apply dedupe_NoDup. apply NoDup_nil_2. Qed.

Lemma derived_keys_elem_of (answers : list (option string)) (x : string) :
  x ∈ map fst (foldl tally [] (answered_skills answers)) ↔ x ∈ answered_skills answers.
Proof. rewrite foldl_tally_keys, dedupe_elem_of. cbn [map]. rewrite elem_of_nil. tauto. Qed.

(** X10: the skills derived from a quiz are at most eight, without repeats,
    and each belongs to the cluster of some answer; either every skill the
    answers name is among them or exactly eight are returned. Without
    answers nothing is derived. *)
Theorem derive_skills_from_quiz_sound (answers : option (list (option string))) :
  let derived := _derive_skills_from_quiz answers in
  NoDup derived ∧
  length derived ≤ 8 ∧
  (∀ x, x ∈ derived → ∃ ans, ans ∈ get answers [] ∧ x ∈ cluster_of ans) ∧
  ((∀ ans x, ans ∈ get answers [] → x ∈ cluster_of ans → x ∈ derived)
   ∨ length derived = 8) ∧
  (get answers [] = [] → derived = []).
Proof.
  intros derived. subst derived. rewrite derive_as_sorted_tally.
  set (tallied := foldl tally [] (answered_skills (get answers []))).
  set (ranked := sort_desc Nat.ltb snd tallied).
  assert (Hperm : map fst ranked ≡ₚ map fst tallied).
  { subst ranked. by rewrite sort_desc_Permutation. }
  assert (Hsub : map fst (take 8 ranked) `sublist_of` map fst ranked).
  { apply (fmap_sublist fst). apply sublist_take. }
  split; [|split; [|split; [|split]]].
  - eapply sublist_NoDup; [|exact Hsub].
    rewrite Hperm. apply derived_keys_NoDup.
  - rewrite length_map, length_take. lia.
  - intros x Hx.
    assert (Hx' : x ∈ map fst tallied).
    { rewrite <- Hperm. eapply sublist_subseteq; [exact Hsub|exact Hx]. }
    apply derived_keys_elem_of in Hx'.
    unfold answered_skills in Hx'. apply list_elem_of_bind in Hx' as (ans & Hx1 & Hans).
    eauto.
  - destruct (decide (length ranked ≤ 8)) as [Hle|Hgt].
    + left. intros ans x Hans Hx. rewrite take_ge by exact Hle.
      rewrite Hperm. apply derived_keys_elem_of.
      unfold answered_skills. apply list_elem_of_bind. eauto.
    + right. rewrite length_map, length_take. lia.
  - intros Hnil. subst ranked tallied. rewrite Hnil. reflexivity.
Qed.

(** X11: the derived skills are ranked by frequency: a skill never stands
    before one that more answers voted for. *)
Theorem derive_skills_ranked_by_votes (answers : option (list (option string)))
    (i j : nat) (a b : string) :
  _derive_skills_from_quiz answers !! i = Some a →
  _derive_skills_from_quiz answers !! j = Some b →
  i < j →
  votes b (get answers []) ≤ votes a (get answers []).
Proof.
  rewrite derive_as_sorted_tally.
  set (tallied := foldl tally [] (answered_skills (get answers []))).
  set (ranked := sort_desc Nat.ltb snd tallied).
  rewrite !list_lookup_fmap.
  intros Hi Hj Hij.
  destruct (take 8 ranked !! i) as [[a' na]|] eqn:Ea; [|done].
  destruct (take 8 ranked !! j) as [[b' nb]|] eqn:Eb; [|done].
  cbn in Hi, Hj. simplify_eq.
  apply lookup_take_Some in Ea as [Ea _]. apply lookup_take_Some in Eb as [Eb _].
  pose proof (sort_desc_ordered Nat.ltb snd Nat.ltb_irrefl Nat_ltb_trans Nat_ltb_cotrans
                tallied i j _ _ Ea Eb Hij) as Hord.
  cbn in Hord. apply Nat.ltb_ge in Hord.
  assert (Hcount : ∀ k n, (k, n) ∈ ranked → n = votes k (get answers [])).
  { intros k n Hk. subst ranked. rewrite sort_desc_Permutation in Hk.
    destruct (foldl_tally_count _ [] k n (NoDup_nil_2) Hk) as (n0 & [H0|[_ ->]] & ->).
    - by apply elem_of_nil in H0.
    - by rewrite occ_answered_skills. }
  rewrite <- (Hcount a na), <- (Hcount b nb); [exact Hord| |];
    eapply list_elem_of_lookup_2; eauto.
Qed.

Lemma derive_skills_ranked_by_votes_witness :
  votes "python" [Some "b"; Some "A"; Some "B"; None]
  ≤ votes "communication" [Some "b"; Some "A"; Some "B"; None].
Proof.
  apply (derive_skills_ranked_by_votes (Some [Some "b"; Some "A"; Some "B"; None])
           0 4 "communication" "python"); [reflexivity|reflexivity|lia].
Defined.

Lemma answered_skills_filter (answers : list (option string)) :
  answered_skills (filter (fun ans => cluster_of ans ≠ []) answers)
  = answered_skills answers.
Proof.
  unfold answered_skills. induction answers as [|ans answers IH]; [done|].
  rewrite filter_cons. destruct (decide (cluster_of ans ≠ [])) as [Hne|He].
  - cbn [mbind list_bind]. by rewrite IH.
  - cbn [mbind list_bind]. rewrite IH.
    destruct (cluster_of ans); [done|]. exfalso. by apply He.
Qed.

Lemma cluster_of_upper (ans : option string) :
  cluster_of (Some (PyStr.upper (str_or ans ""))) = cluster_of ans.
Proof.
  unfold cluster_of. f_equal.
  destruct (PyStr.upper (str_or ans "")) eqn:E; cbn [str_or]; [done|].
  rewrite <- E. apply upper_idem.
Qed.

(** X12: the quiz is read without regard to case, and answers that name no
    known type (or no type at all) are ignored: dropping them, or writing
    every type in upper case, leaves the derived skills as they are. *)
Theorem derive_skills_ignores_case_and_unknown (answers : list (option string)) :
  _derive_skills_from_quiz (Some (filter (fun ans => cluster_of ans ≠ []) answers))
  = _derive_skills_from_quiz (Some answers) ∧
  _derive_skills_from_quiz
    (Some (map (fun ans => Some (PyStr.upper (str_or ans ""))) answers))
  = _derive_skills_from_quiz (Some answers).
Proof.
  rewrite !derive_as_sorted_tally. cbn [get default from_option id].
  split.
  - by rewrite answered_skills_filter.
  - do 4 f_equal. unfold answered_skills.
    induction answers as [|ans answers IH]; [done|].
    cbn [map mbind list_bind]. by rewrite cluster_of_upper, IH.
Qed.

Example derive_two_clusters :
  _derive_skills_from_quiz (Some [Some "b"; Some "A"; Some "B"; None; Some "z"])
  = ["communication"; "teaching"; "empathy"; "presentation";
     "python"; "analysis"; "sql"; "data visualization"].
Proof. reflexivity. Qed.

(* ===================================================================== *)
(** ** Further properties of roadmap synthesis *)
(* ===================================================================== *)

(** *** Sampling without replacement *)

Lemma random_sample_submseteq (k : nat) (pool : list string) (g : Rng) :
  (random_sample pool k g).1 ⊆+ pool ∧
  length (random_sample pool k g).1 = min k (length pool).
Proof.
  revert pool g. induction k as [|k IH]; intros pool g.
  - split; [apply submseteq_nil_l|reflexivity].
  - destruct (decide (pool = [])) as [->|Hne].
    { rewrite random_sample_nil. split; [done|cbn; lia]. }
    destruct (random_sample_step pool k g Hne) as (j & x & Hx & ->).
    cbn [fst].
    destruct (IH (delete j pool) (tail g)) as [Hsub Hlen].
    pose proof (lookup_lt_Some _ _ _ Hx) as Hj.
    split.
    + etrans; [|apply Permutation_submseteq; symmetry;
                 apply (delete_Permutation pool j x Hx)].
      by constructor.
    + cbn [length]. rewrite Hlen, length_delete by eauto. lia.
Qed.

Section MoreSynthesisFacts.

Variable career : Career.
Variable profile_skills : list string.

(** X13: a task list of the step generator is either the synthetic
    placeholders (no occupation tasks; nothing is drawn from the generator)
    or a sample of the occupation's tasks without replacement: as many tasks
    as asked for, or all of them when there are fewer, and no task more
    often than the occupation lists it. *)
Theorem get_tasks_sample (count : nat) (prefix : string) (g : Rng) :
  let pool := get (c_tasks career) [] in
  let ts := (get_tasks career count prefix g).1 in
  (pool = [] → ts = placeholders count prefix ∧ (get_tasks career count prefix g).2 = g) ∧
  (pool ≠ [] → ts ⊆+ pool ∧ length ts = min count (length pool)) ∧
  length ts ≤ count.
Proof.
  intros pool ts. subst pool ts. unfold get_tasks, career_tasks, placeholders.
  destruct (get (c_tasks career) []) as [|t rest] eqn:E.
  - split; [|split]; [done|done|]. cbn [ret fst]. by rewrite length_map, length_seq.
  - rewrite <- E.
    destruct (random_sample_submseteq (min (length (get (c_tasks career) [])) count)
                (get (c_tasks career) []) g) as [Hsub Hlen].
    split; [|split].
    + intros Hnil. rewrite Hnil in E. discriminate.
    + intros _. split; [exact Hsub|]. rewrite Hlen. lia.
    + rewrite Hlen. lia.
Qed.

(** X14: the skills of the occupation, in lower case, split into the known
    ones (those among the profile skills) and the missing ones (the rest),
    each side in the order of the occupation's list: together they are the
    whole list, and no skill is on both sides. *)
Theorem known_missing_partition :
  known career profile_skills ++ missing career profile_skills
    ≡ₚ map PyStr.lower (get (c_skills career) []) ∧
  known career profile_skills `sublist_of` map PyStr.lower (get (c_skills career) []) ∧
  missing career profile_skills `sublist_of` map PyStr.lower (get (c_skills career) []) ∧
  (∀ x, x ∈ known career profile_skills → x ∈ profile_skills) ∧
  (∀ x, x ∈ missing career profile_skills → x ∉ profile_skills) ∧
  (∀ x, x ∈ known career profile_skills → x ∉ missing career profile_skills).
Proof.
  unfold known, missing. split; [apply filter_app_complement|].
  split; [apply sublist_filter|]. split; [apply sublist_filter|].
  split; [|split].
  - intros x [Hx _]%list_elem_of_filter. exact Hx.
  - intros x [Hx _]%list_elem_of_filter. exact Hx.
  - intros x [Hx _]%list_elem_of_filter [Hx' _]%list_elem_of_filter. contradiction.
Qed.

Lemma skills_to_learn_length :
  length (skills_to_learn career profile_skills) ≤ 4.
Proof.
  unfold skills_to_learn.
  destruct (missing career profile_skills); rewrite length_take; lia.
Qed.

Lemma skills_to_learn_nil :
  skills_to_learn career profile_skills = [] ↔ get (c_skills career) [] = [].
Proof.
  unfold skills_to_learn. split.
  - destruct (missing career profile_skills) as [|m ms] eqn:Em; [|discriminate].
    destruct (get (c_skills career) []); [done|discriminate].
  - intros H. rewrite (missing_no_skills _ _ H), H. reflexivity.
Qed.

Lemma core_children_length :
  length (core_children career profile_skills)
  = length (skills_to_learn career profile_skills).
Proof. unfold core_children. apply length_imap. Qed.

Lemma core_children_lookup (i : nat) (kid : RoadmapStep) :
  core_children career profile_skills !! i = Some kid →
  duration_months kid = 2 ∧
  children kid = [] ∧
  1 ≤ length (tasks kid) ≤ 3 ∧
  (i ≠ 0 → prerequisites kid = []) ∧
  length (prerequisites kid) ≤ 2 ∧
  (∀ x, x ∈ prerequisites kid → x ∈ known career profile_skills).
Proof.
  unfold core_children. rewrite list_lookup_imap.
  destruct (skills_to_learn career profile_skills !! i) as [sk|]; [|done].
  intros [= <-]. unfold core_child, make_step.
  cbn [duration_months children tasks prerequisites get default from_option id].
  split; [done|]. split; [done|]. split; [|split; [|split]].
  - destruct (filter _ (career_tasks career)) as [|t ts] eqn:Ef.
    + cbn. lia.
    + rewrite length_take. cbn [length]. lia.
  - intros Hi. by rewrite decide_False.
  - case_decide; [rewrite length_take|cbn]; lia.
  - intros x. case_decide; [|intros Hnil; by apply elem_of_nil in Hnil].
    intros Hx. eapply sublist_subseteq; [apply sublist_take|exact Hx].
Qed.

(** X15: the core phase teaches at most four skills, one sub-step each, and
    has sub-steps whenever the occupation lists a skill, also when the
    profile already holds them all. Each sub-step lasts two months, has no
    sub-steps of its own, and carries one to three tasks; only the first
    sub-step has prerequisites, at most two, all of them known skills. *)
Theorem core_children_shape :
  length (core_children career profile_skills) ≤ 4 ∧
  (core_children career profile_skills = [] ↔ get (c_skills career) [] = []) ∧
  (∀ i kid, core_children career profile_skills !! i = Some kid →
     duration_months kid = 2 ∧
     children kid = [] ∧
     1 ≤ length (tasks kid) ≤ 3 ∧
     (i ≠ 0 → prerequisites kid = []) ∧
     length (prerequisites kid) ≤ 2 ∧
     (∀ x, x ∈ prerequisites kid → x ∈ known career profile_skills)).
Proof.
  split; [rewrite core_children_length; apply skills_to_learn_length|].
  split; [|exact core_children_lookup].
  rewrite <- skills_to_learn_nil. unfold core_children.
  destruct (skills_to_learn career profile_skills); [done|].
  rewrite imap_cons. split; discriminate.
Qed.

Lemma spec_children_length (g : Rng) :
  length (spec_children career profile_skills g).1 = 1.
Proof.
  unfold spec_children, bind, ret. destruct (get_tasks career 4 _ g). reflexivity.
Qed.

Lemma foundations_children_length (g : Rng) :
  length (foundations_children career true g).1 = 2.
Proof.
  unfold foundations_children, bind, ret. destruct (get_tasks career 5 _ g). reflexivity.
Qed.

(** X16: a roadmap lasts between 9 and 12 months in all (the sum over its
    five phases in beginner mode): at least 10 with a focus the generator
    recognises, at most 11 with any other. *)
Theorem total_duration_bounds (focus : string) (g : Rng) :
  let total :=
    sum_list (map duration_months
                (generate_steps_for_career career profile_skills focus true g).1) in
  9 ≤ total ≤ 12 ∧
  (focus ∈ focuses → 10 ≤ total) ∧
  (focus ∉ focuses → total ≤ 11).
Proof.
  intros total. subst total. rewrite generate_steps_unfold.
  pose proof (core_children_length) as Hc.
  pose proof (skills_to_learn_length) as Hs.
  destruct (foundations_children career true g) as [fk g1].
  pose proof (project_children_length career profile_skills g1) as Hp.
  destruct (project_children career profile_skills g1) as [pk g2].
  destruct (spec_children career profile_skills g2) as [sk g3].
  cbn [fst] in *. unfold tailored.
  repeat case_decide; subst;
    cbn [map sum_list_with duration_months foundations_step core_step project_step
         spec_step job_step make_step add_month job_children length id];
    rewrite ?Hp;
    (split; [lia|split; [intros Hf|intros Hf]]; try lia;
     exfalso; revert Hf; unfold focuses;
     rewrite ?elem_of_cons, ?elem_of_nil; try tauto; intros Hf; apply Hf; auto).
Qed.

End MoreSynthesisFacts.

Section TreeFacts.

Variable career : Career.
Variable profile_skills : list string.

Lemma core_children_leaves :
  Forall (fun kid => children kid = []) (core_children career profile_skills).
Proof.
  apply Forall_lookup. intros i kid Hkid.
  by destruct (core_children_lookup career profile_skills i kid Hkid) as (_ & ? & _).
Qed.

Lemma children_add_month (s : RoadmapStep) : children (add_month s) = children s.
Proof. reflexivity. Qed.

Lemma prerequisites_add_month (s : RoadmapStep) :
  prerequisites (add_month s) = prerequisites s.
Proof. reflexivity. Qed.

Lemma tailored_children (focus : string) (phases : list RoadmapStep) :
  map children (tailored focus phases) = map children phases.
Proof.
  destruct phases as [|f [|c [|p [|s [|j [|x rest]]]]]]; try reflexivity.
  unfold tailored. repeat case_decide; reflexivity.
Qed.

Lemma tailored_prerequisites (focus : string) (phases : list RoadmapStep) :
  map prerequisites (tailored focus phases) = map prerequisites phases.
Proof.
  destruct phases as [|f [|c [|p [|s [|j [|x rest]]]]]]; try reflexivity.
  unfold tailored. repeat case_decide; reflexivity.
Qed.

(** X17: a roadmap is a tree of depth two: Foundations, Practical
    Application, Specialization and Career Launch have 2, 2, 1 and 2
    sub-steps, the core phase one per skill taught (at most 4), and no
    sub-step has sub-steps of its own; so a roadmap has at most 16 steps. *)
Theorem roadmap_tree_shape (focus : string) (g : Rng) :
  let steps := (generate_steps_for_career career profile_skills focus true g).1 in
  map (fun s => length (children s)) steps
    = [2; length (skills_to_learn career profile_skills); 2; 1; 2] ∧
  length (skills_to_learn career profile_skills) ≤ 4 ∧
  Forall (fun s => Forall (fun kid => children kid = []) (children s)) steps ∧
  sum_list (map (fun s => 1 + length (children s)) steps) ≤ 16.
Proof.
  intros steps. subst steps. rewrite generate_steps_unfold.
  pose proof (skills_to_learn_length career profile_skills) as Hs.
  pose proof (core_children_length career profile_skills) as Hc.
  pose proof (core_children_leaves) as Hleaves.
  unfold foundations_children, project_children, spec_children, bind, ret.
  destruct (get_tasks career 5 "Study fundamental concept" g) as [t1 g1].
  destruct (get_tasks career 4 "Implement basic feature" g1) as [t2 g2].
  destruct (get_tasks career 5 "Implement advanced feature" g2) as [t3 g3].
  destruct (get_tasks career 4 "Study advanced topic" g3) as [t4 g4].
  cbn [fst].
  set (phases := [_; _; _; _; _]).
  assert (Hkids : map children (tailored focus phases) = map children phases)
    by apply tailored_children.
  assert (Hlens : map (fun s => length (children s)) (tailored focus phases)
                  = [2; length (skills_to_learn career profile_skills); 2; 1; 2]).
  { rewrite <- (map_map children length), Hkids. subst phases.
    cbn [map children foundations_step core_step project_step spec_step job_step
         make_step get default from_option id job_children length].
    by rewrite Hc. }
  split; [exact Hlens|]. split; [exact Hs|]. split.
  - apply Forall_forall. intros s Hs'.
    assert (Hin : children s ∈ map children phases).
    { rewrite <- Hkids. apply list_elem_of_fmap. eauto. }
    subst phases.
    cbn [map children foundations_step core_step project_step spec_step job_step
         make_step get default from_option id job_children] in Hin.
    repeat (apply elem_of_cons in Hin as [->|Hin]);
      [| exact Hleaves | | | | by apply elem_of_nil in Hin];
      repeat constructor.
  - rewrite <- (map_map (fun s => length (children s)) (fun n => 1 + n)), Hlens.
    cbn. lia.
Qed.

(** X18: every prerequisite anywhere in a roadmap is a lower-cased skill of
    the occupation; Foundations, Specialization and Career Launch have none,
    and those of the core and the practical phase are the known skills. *)
Theorem roadmap_prerequisites (focus : string) (g : Rng) :
  let steps := (generate_steps_for_career career profile_skills focus true g).1 in
  Forall (fun s => ∀ x, x ∈ prerequisites s →
                        x ∈ map PyStr.lower (get (c_skills career) []))
    (flat_map subtree steps) ∧
  map prerequisites steps
    = [[]; known career profile_skills; known career profile_skills; []; []].
Proof.
  intros steps. subst steps. rewrite generate_steps_unfold.
  assert (Hknown : ∀ x, x ∈ known career profile_skills →
                        x ∈ map PyStr.lower (get (c_skills career) [])).
  { intros x [_ Hx]%list_elem_of_filter. exact Hx. }
  assert (Hmissing : ∀ n x, x ∈ take n (missing career profile_skills) →
                            x ∈ map PyStr.lower (get (c_skills career) [])).
  { intros n x Hx.
    assert (Hx' : x ∈ missing career profile_skills)
      by (eapply sublist_subseteq; [apply sublist_take|exact Hx]).
    apply list_elem_of_filter in Hx' as [_ Hx']. exact Hx'. }
  assert (Hmix : ∀ n x, x ∈ known career profile_skills
                            ++ take n (missing career profile_skills) →
                        x ∈ map PyStr.lower (get (c_skills career) [])).
  { intros n x [Hx|Hx]%elem_of_app; eauto. }
  assert (Hnone : ∀ x, x ∈ @nil string →
                       x ∈ map PyStr.lower (get (c_skills career) [])).
  { intros x Hx. by apply elem_of_nil in Hx. }
  assert (Hcore : Forall (fun s => ∀ x, x ∈ prerequisites s →
                            x ∈ map PyStr.lower (get (c_skills career) []))
                    (flat_map subtree (core_children career profile_skills))).
  { pose proof (core_children_lookup career profile_skills) as Hshape.
    pose proof core_children_leaves as Hleaves.
    apply Forall_forall. intros s Hs.
    apply list_elem_of_In, in_flat_map in Hs as (kid & Hkid & Hs).
    apply list_elem_of_In in Hkid. apply list_elem_of_In in Hs.
    rewrite Forall_forall in Hleaves. specialize (Hleaves kid Hkid).
    destruct kid as [t o d pre ms rs ts kids]. cbn in Hleaves. subst kids.
    cbn in Hs. apply list_elem_of_singleton in Hs as ->.
    apply list_elem_of_lookup in Hkid as [i Hi].
    destruct (Hshape i _ Hi) as (_ & _ & _ & _ & _ & Hpre).
    intros x Hx. apply Hknown, Hpre, Hx. }
  unfold foundations_children, project_children, spec_children, bind, ret.
  destruct (get_tasks career 5 "Study fundamental concept" g) as [t1 g1].
  destruct (get_tasks career 4 "Implement basic feature" g1) as [t2 g2].
  destruct (get_tasks career 5 "Implement advanced feature" g2) as [t3 g3].
  destruct (get_tasks career 4 "Study advanced topic" g3) as [t4 g4].
  cbn [fst].
  split; [|rewrite tailored_prerequisites; reflexivity].
  unfold tailored.
  repeat case_decide;
    unfold foundations_step, core_step, project_step, spec_step, job_step,
      job_children, add_month, make_step;
    cbn [flat_map subtree get default from_option id app
         title objective duration_months prerequisites milestones resources tasks
         children];
    rewrite ?app_nil_r;
    repeat (first [ apply Forall_cons; split; [first [exact Hknown | exact (Hmix _)
                                                       | exact Hnone]|]
                  | apply Forall_app; split; [exact Hcore|]
                  | apply Forall_nil_2 ]).
Qed.

(** X19: outside beginner mode the Foundations phase lasts no time and has
    no sub-steps, and its task sample is not drawn: the other four phases
    are those of a beginner run taken up after that first sample. *)
Theorem non_beginner_skips_foundations (focus : string) (g : Rng) :
  let advanced := (generate_steps_for_career career profile_skills focus false g).1 in
  let after_sample := (get_tasks career 5 "Study fundamental concept" g).2 in
  let beginner :=
    (generate_steps_for_career career profile_skills focus true g).1 in
  (∃ f, head advanced = Some f ∧ title f = "Foundations" ∧
        duration_months f = 0 ∧ children f = []) ∧
  (∃ f, head beginner = Some f ∧ title f = "Foundations" ∧
        duration_months f = 1 ∧ length (children f) = 2) ∧
  tail (generate_steps_for_career career profile_skills focus false after_sample).1
  = tail beginner.
Proof.
  intros advanced after_sample beginner. subst advanced after_sample beginner.
  rewrite !generate_steps_unfold.
  unfold foundations_children, bind, ret.
  destruct (get_tasks career 5 "Study fundamental concept" g) as [t1 g1].
  cbn [snd].
  destruct (project_children career profile_skills g) as [pk0 g0'].
  destruct (spec_children career profile_skills g0') as [sk0 g0''].
  destruct (project_children career profile_skills g1) as [pk g2].
  destruct (spec_children career profile_skills g2) as [sk g3].
  cbn [fst]. unfold tailored.
  repeat case_decide; (split; [|split]);
    first [ eexists; split; [reflexivity|]; repeat split | reflexivity ].
Qed.

End TreeFacts.

Lemma generate_steps_length (career : Career) (profile_skills : list string)
    (focus : string) (g : Rng) :
  length (generate_steps_for_career career profile_skills focus true g).1 = 5.
Proof.
  rewrite generate_steps_unfold.
  destruct (foundations_children career true g) as [fk h1].
  destruct (project_children career profile_skills h1) as [pk h2].
  destruct (spec_children career profile_skills h2) as [sk h3].
  cbn [fst]. unfold tailored. repeat case_decide; reflexivity.
Qed.

Lemma generate_distinct_roadmaps_unfold (profile : UserInput) (top : Career) (g : Rng) :
  let skills := get (u_skills profile) [] in
  let run f g := generate_steps_for_career top skills f true g in
  let g1 := (run "Depth" g).2 in
  let g2 := (run "Fast-Entry" g1).2 in
  let name := str_or (c_career top) (get (c_label top) "Career") in
  generate_distinct_roadmaps profile top g =
    ([ Build_Roadmap name "Depth" 0.8 (run "Depth" g).1;
       Build_Roadmap name "Fast-Entry" 0.8 (run "Fast-Entry" g1).1;
       Build_Roadmap name "Transition" 0.8 (run "Transition" g2).1 ],
     (run "Transition" g2).2).
Proof.
  intros skills run g1 g2 name. subst run g1 g2 name.
  unfold generate_distinct_roadmaps, focuses, for_each, bind, ret.
  fold skills.
  destruct (generate_steps_for_career top skills "Depth" true g) as [s1 h1].
  cbn [fst snd].
  destruct (generate_steps_for_career top skills "Fast-Entry" true h1) as [s2 h2].
  cbn [fst snd].
  destruct (generate_steps_for_career top skills "Transition" true h2) as [s3 h3].
  reflexivity.
Qed.

(** X20: one synthesis pass gives three roadmaps, for Depth, Fast-Entry and
    Transition in that order, each with five steps, confidence 0.8 and the
    same title: the occupation's name, or its label (or "Career") when the
    name is missing or empty. Each roadmap is generated from the generator
    state its predecessor left behind. *)
Theorem generate_distinct_roadmaps_shape (profile : UserInput) (top : Career) (g : Rng) :
  let skills := get (u_skills profile) [] in
  let run f g := generate_steps_for_career top skills f true g in
  let g1 := (run "Depth" g).2 in
  let g2 := (run "Fast-Entry" g1).2 in
  let name := str_or (c_career top) (get (c_label top) "Career") in
  generate_distinct_roadmaps profile top g =
    ([ Build_Roadmap name "Depth" 0.8 (run "Depth" g).1;
       Build_Roadmap name "Fast-Entry" 0.8 (run "Fast-Entry" g1).1;
       Build_Roadmap name "Transition" 0.8 (run "Transition" g2).1 ],
     (run "Transition" g2).2) ∧
  length (run "Depth" g).1 = 5 ∧
  length (run "Fast-Entry" g1).1 = 5 ∧
  length (run "Transition" g2).1 = 5 ∧
  (∀ a n, c_career top = Some (String a n) → name = String a n) ∧
  (c_career top = None ∨ c_career top = Some "" → name = get (c_label top) "Career").
Proof.
  intros skills run g1 g2 name.
  split; [apply generate_distinct_roadmaps_unfold|].
  subst run g1 g2 name.
  split; [apply generate_steps_length|].
  split; [apply generate_steps_length|].
  split; [apply generate_steps_length|]. split.
  - intros a n ->. reflexivity.
  - intros [-> | ->]; reflexivity.
Qed.

(* ===================================================================== *)
(** ** Plotting and the request as a whole *)
(* ===================================================================== *)

Section PlotFacts.

Variable mkdir : string -> Result unit.
Variable render_png : string -> Roadmap -> Result unit.

Lemma plot_from_ok (roadmaps : list Roadmap) (idx : nat) (urls : list string) :
  plot_from render_png idx roadmaps = Ok urls ↔
  (∀ i r, roadmaps !! i = Some r → render_png (png_path (idx + i)) r = Ok ()) ∧
  urls = imap (fun i _ => png_url (idx + i)) roadmaps.
Proof.
  revert idx urls. induction roadmaps as [|r rest IH]; intros idx urls.
  - cbn [plot_from imap]. split.
    + intros [= <-]. split; [|done]. intros i r Hi. by rewrite lookup_nil in Hi.
    + intros [_ ->]. done.
  - cbn [plot_from]. fold (png_path idx) (png_url idx). rewrite imap_cons. split.
    + destruct (render_png (png_path idx) r) as [[]|e] eqn:Er; [|done].
      cbn [mbind Result_bind].
      destruct (plot_from render_png (idx + 1) rest) as [us|e] eqn:Ep; [|done].
      cbn [mbind Result_bind]. intros [= <-].
      apply IH in Ep as [Hall ->]. split.
      * intros [|i] r' Hi; cbn in Hi.
        -- simplify_eq. by rewrite Nat.add_0_r.
        -- replace (idx + S i) with (idx + 1 + i) by lia. by apply Hall.
      * rewrite Nat.add_0_r. f_equal. apply imap_ext. intros i x _. cbn.
        f_equal; lia.
    + intros [Hall ->].
      rewrite <- (Nat.add_0_r idx) at 1. rewrite (Hall 0 r eq_refl).
      cbn [mbind Result_bind].
      assert (Hrest : plot_from render_png (idx + 1) rest
                      = Ok (imap (fun i _ => png_url (idx + 1 + i)) rest)).
      { apply IH. split; [|done]. intros i r' Hi.
        replace (idx + 1 + i) with (idx + S i) by lia. by apply (Hall (S i)). }
      rewrite Hrest. cbn [mbind Result_bind]. rewrite Nat.add_0_r. do 2 f_equal.
      apply imap_ext. intros i x _. cbn. f_equal; lia.
Qed.

Lemma plot_from_raise (roadmaps : list Roadmap) (idx : nat) (e : exn) :
  plot_from render_png idx roadmaps = Raise e ↔
  ∃ i r, roadmaps !! i = Some r ∧ render_png (png_path (idx + i)) r = Raise e ∧
         ∀ j r', j < i → roadmaps !! j = Some r' →
                 render_png (png_path (idx + j)) r' = Ok ().
Proof.
  revert idx. induction roadmaps as [|r rest IH]; intros idx.
  - cbn [plot_from]. split; [done|]. intros (i & r & Hi & _).
    by rewrite lookup_nil in Hi.
  - cbn [plot_from]. fold (png_path idx) (png_url idx). split.
    + destruct (render_png (png_path idx) r) as [[]|e'] eqn:Er.
      * cbn [mbind Result_bind].
        destruct (plot_from render_png (idx + 1) rest) as [us|e'] eqn:Ep; [done|].
        cbn [mbind Result_bind]. intros [= ->].
        apply IH in Ep as (i & r' & Hi & Hr & Hbefore).
        exists (S i), r'. split; [exact Hi|]. split.
        -- replace (idx + S i) with (idx + 1 + i) by lia. exact Hr.
        -- intros [|j] r'' Hj Hj'; cbn in Hj'.
           ++ simplify_eq. by rewrite Nat.add_0_r.
           ++ replace (idx + S j) with (idx + 1 + j) by lia.
              apply Hbefore; [lia|exact Hj'].
      * cbn [mbind Result_bind]. intros [= ->].
        exists 0, r. split; [done|]. split; [by rewrite Nat.add_0_r|]. lia.
    + intros ([|i] & r' & Hi & Hr & Hbefore); cbn in Hi.
      * simplify_eq. rewrite Nat.add_0_r in Hr. rewrite Hr. done.
      * rewrite <- (Nat.add_0_r idx) at 1.
        rewrite (Hbefore 0 r ltac:(lia) eq_refl). cbn [mbind Result_bind].
        assert (Hrest : plot_from render_png (idx + 1) rest = Raise e).
        { apply IH. exists i, r'. split; [exact Hi|]. split.
          - replace (idx + 1 + i) with (idx + S i) by lia. exact Hr.
          - intros j r'' Hj Hj'. replace (idx + 1 + j) with (idx + S j) by lia.
            apply (Hbefore (S j)); [lia|exact Hj']. }
        rewrite Hrest. done.
Qed.

(** X21: plotting into static/roadmaps succeeds exactly when the directory
    can be made and every roadmap can be drawn, and then returns one URL per
    roadmap, /static/roadmaps/roadmap_1.png onwards in roadmap order; it
    fails with the exception of the directory, or else with that of the
    first roadmap that cannot be drawn. *)
Theorem plot_roadmaps_outcome (roadmaps : list Roadmap) :
  let plot := _plot_roadmaps mkdir render_png roadmaps "static/roadmaps" in
  (∀ e, mkdir "static/roadmaps" = Raise e → plot = Raise e) ∧
  (mkdir "static/roadmaps" = Ok () →
     (∀ urls,
        plot = Ok urls ↔
        (∀ i r, roadmaps !! i = Some r → render_png (png_path i) r = Ok ()) ∧
        urls = imap (fun i _ => png_url i) roadmaps) ∧
     (∀ e,
        plot = Raise e ↔
        ∃ i r, roadmaps !! i = Some r ∧ render_png (png_path i) r = Raise e ∧
               ∀ j r', j < i → roadmaps !! j = Some r' →
                       render_png (png_path j) r' = Ok ())).
Proof.
  intros plot. subst plot. unfold _plot_roadmaps. split.
  - intros e ->. reflexivity.
  - intros ->. cbn [mbind Result_bind]. split.
    + intros urls. apply (plot_from_ok roadmaps 0).
    + intros e. apply (plot_from_raise roadmaps 0).
Qed.

End PlotFacts.

Section RequestFacts.

Variable CAREER_DATASET : list Career.
Variable query_skill : string -> nat -> Result (list string * list Q).
Variable token_sort_ratio : string -> string -> Q.
Variable mkdir : string -> Result unit.
Variable render_png : string -> Roadmap -> Result unit.
Variable write_json : string -> Output -> Result unit.
Variable timestamp : string.

Local Abbreviation resolved := (request_skills CAREER_DATASET query_skill token_sort_ratio).

(** X22: when the matched occupation has no career key the request raises
    KeyError for it, whatever the renderer and the file system do, although
    the roadmaps themselves fall back on the occupation's label. *)
Theorem missing_career_key_raises (user_input : UserInput) (g : Rng) (top : Career) :
  select_top CAREER_DATASET (resolved user_input) (u_summary user_input) = Ok top →
  c_career top = None →
  generate_roadmaps_for_user CAREER_DATASET query_skill token_sort_ratio mkdir
    render_png write_json timestamp user_input g = Raise (KeyError "career") ∧
  Forall (fun r => path_title r = get (c_label top) "Career")
    (generate_distinct_roadmaps (with_skills user_input (resolved user_input))
       top g).1.
Proof.
  intros Htop Hnone. split.
  - unfold generate_roadmaps_for_user, compute_output.
    fold (resolved user_input). rewrite Htop. cbn [mbind Result_bind].
    rewrite Hnone. reflexivity.
  - rewrite generate_distinct_roadmaps_unfold. cbn [fst]. rewrite Hnone.
    repeat constructor.
Qed.

(** X23: when the matched occupation has a name and the renderer and the
    file system work, the request returns the input as given, the resolved
    skills, the name of the matched occupation, the three roadmaps made for
    it from the resolved skills, and their three image URLs. *)
Theorem generate_roadmaps_for_user_success (user_input : UserInput) (g : Rng)
    (top : Career) (name : string) :
  select_top CAREER_DATASET (resolved user_input) (u_summary user_input) = Ok top →
  c_career top = Some name →
  (∀ p, mkdir p = Ok ()) →
  (∀ p r, render_png p r = Ok ()) →
  (∀ p out, write_json p out = Ok ()) →
  generate_roadmaps_for_user CAREER_DATASET query_skill token_sort_ratio mkdir
    render_png write_json timestamp user_input g =
    Ok (Build_Output user_input (resolved user_input) name
          (generate_distinct_roadmaps
             (with_skills user_input (resolved user_input)) top g).1
          (Some [png_url 0; png_url 1; png_url 2])).
Proof.
  intros Htop Hname Hmkdir Hrender Hwrite.
  unfold generate_roadmaps_for_user, compute_output.
  fold (resolved user_input). rewrite Htop. cbn [mbind Result_bind].
  rewrite Hname. cbn [mbind Result_bind out_roadmaps].
  set (roadmaps := (generate_distinct_roadmaps _ top g).1).
  assert (Hplot : _plot_roadmaps mkdir render_png roadmaps "static/roadmaps"
                  = Ok [png_url 0; png_url 1; png_url 2]).
  { unfold _plot_roadmaps. rewrite Hmkdir. cbn [mbind Result_bind].
    apply plot_from_ok. split; [intros; apply Hrender|].
    subst roadmaps.
    rewrite generate_distinct_roadmaps_unfold. reflexivity. }
  rewrite Hplot. cbn [mbind Result_bind].
  rewrite !Hwrite, Hmkdir. reflexivity.
Qed.

End RequestFacts.

Lemma missing_career_key_raises_witness :
  generate_roadmaps_for_user [labelled_only] index_missing exact_ratio mkdir_ok
    render_ok write_ok "20260101_000000" python_sql_request []
  = Raise (KeyError "career").
Proof.
  apply (missing_career_key_raises [labelled_only] index_missing exact_ratio mkdir_ok
           render_ok write_ok "20260101_000000" python_sql_request [] labelled_only);
    reflexivity.
Defined.

Lemma generate_roadmaps_for_user_success_witness :
  generate_roadmaps_for_user fallback_dataset index_missing exact_ratio mkdir_ok
    render_ok write_ok "20260101_000000" python_sql_request [] =
  Ok (Build_Output python_sql_request
        (request_skills fallback_dataset index_missing exact_ratio python_sql_request)
        "Data Analyst"
        (generate_distinct_roadmaps
           (with_skills python_sql_request
              (request_skills fallback_dataset index_missing exact_ratio
                 python_sql_request))
           data_analyst []).1
        (Some [png_url 0; png_url 1; png_url 2])).
Proof.
  apply (generate_roadmaps_for_user_success fallback_dataset index_missing exact_ratio
           mkdir_ok render_ok write_ok "20260101_000000" python_sql_request []
           data_analyst "Data Analyst"); reflexivity.
Defined.

(* ===================================================================== *)
(** ** The diagram: nodes, edges and layout *)
(* ===================================================================== *)

(** *** The enumeration *)

Lemma RoadmapStep_children_ind (P : RoadmapStep -> Prop) :
  (∀ s, Forall P (children s) → P s) → ∀ s, P s.
Proof.
  intros H. fix IH 1. intros s. apply H.
  destruct s as [t o d pre ms rs ts kids]. cbn [children].
  induction kids as [|k kids IHk]; constructor; [apply IH|exact IHk].
Qed.

Lemma subtree_unfold (s : RoadmapStep) :
  subtree s = s :: flat_map subtree (children s).
Proof. by destruct s. Qed.

Lemma walk_step_Instance (d : nat) (p : option nat) (s : RoadmapStep) (st : Walk) :
  walk_step Instance d p s st =
    foldl (fun st' ch =>
             walk_step Instance (d + 1) (Some (w_counter st)) ch
               (Build_Walk (w_nodes st') (w_edges st' ++ [(w_counter st, w_counter st')])
                  (w_counter st')))
          (Build_Walk
             (w_nodes st ++ [Build_Node (w_counter st) (title s) (duration_months s) d p
                               (length (milestones s)) (length (tasks s))])
             (w_edges st) (w_counter st + 1))
          (children s).
Proof. by destruct s. Qed.

Lemma walk_step_Dict (d : nat) (p : option nat) (s : RoadmapStep) (st : Walk) :
  walk_step Dict d p s st =
    Build_Walk (w_nodes st ++ [Build_Node (w_counter st) "" 1 d p 0 0])
      (w_edges st) (w_counter st + 1).
Proof. by destruct s. Qed.

Lemma numbered_length (c d : nat) (p : option nat) (l : list RoadmapStep)
    (new : list Node) :
  numbered c d p l new → length new = length (flat_map subtree l).
Proof.
  intros (Hid & _). apply (f_equal length) in Hid.
  by rewrite length_map, length_seq in Hid.
Qed.

Lemma numbered_id_ge (c d : nat) (p : option nat) (l : list RoadmapStep)
    (new : list Node) (n : Node) :
  numbered c d p l new → n ∈ new → c ≤ node_id n.
Proof.
  intros (Hid & _) Hn.
  assert (H : node_id n ∈ map node_id new) by (apply list_elem_of_fmap; eauto).
  rewrite Hid in H. apply elem_of_seq in H. lia.
Qed.

Lemma numbered_nil (c d : nat) (p : option nat) : numbered c d p [] [].
Proof.
  split; [done|]. split; [done|]. intros n s H. by apply elem_of_nil in H.
Qed.

Lemma numbered_app (c d : nat) (p : option nat) (l1 l2 : list RoadmapStep)
    (new1 new2 : list Node) :
  numbered c d p l1 new1 →
  numbered (c + length new1) d p l2 new2 →
  numbered c d p (l1 ++ l2) (new1 ++ new2).
Proof.
  intros H1 H2.
  pose proof (numbered_length _ _ _ _ _ H1) as Hlen1.
  destruct H1 as (Hid1 & Hf1 & Hp1). destruct H2 as (Hid2 & Hf2 & Hp2).
  unfold numbered. rewrite flat_map_app, !map_app, length_app, seq_app.
  rewrite zip_with_app by exact Hlen1.
  split; [by rewrite Hid1, Hid2, Hlen1|]. split; [by rewrite Hf1, Hf2|].
  intros n s [Hin|Hin]%elem_of_app.
  - destruct (Hp1 n s Hin) as [(? & ? & ?)|(pn & sp & Hpn & ?)].
    + left. rewrite elem_of_app. auto.
    + right. exists pn, sp. rewrite elem_of_app. auto.
  - destruct (Hp2 n s Hin) as [(? & ? & ?)|(pn & sp & Hpn & ?)].
    + left. rewrite elem_of_app. auto.
    + right. exists pn, sp. rewrite elem_of_app. auto.
Qed.

Lemma numbered_step (c d : nat) (p : option nat) (s : RoadmapStep) (newk : list Node) :
  numbered (c + 1) (d + 1) (Some c) (children s) newk →
  numbered c d p [s]
    (Build_Node c (title s) (duration_months s) d p
       (length (milestones s)) (length (tasks s)) :: newk).
Proof.
  intros Hk.
  pose proof (fun n => numbered_id_ge _ _ _ _ _ n Hk) as Hge.
  destruct Hk as (Hid & Hf & Hp).
  unfold numbered. cbn [flat_map]. rewrite app_nil_r, subtree_unfold.
  cbn [map length seq zip_with node_id].
  split; [by rewrite Hid, Nat.add_1_r|]. split; [by rewrite Hf|].
  intros n s' [[= -> ->]|Hin]%elem_of_cons.
  - left. split; [done|]. split; [done|]. by left.
  - right. destruct (Hp n s' Hin) as [(Hd & Hpar & Hs')|(pn & sp & Hpn & Hrest)].
    + eexists _, s. split; [by left|]. cbn [node_id node_depth children].
      split; [exact Hpar|]. split; [|done].
      apply elem_of_zip_l in Hin. specialize (Hge n Hin). lia.
    + exists pn, sp. split; [by right|exact Hrest].
Qed.

(** A loop whose body numbers one step numbers the list. *)
Lemma foldl_numbered (f : Walk -> RoadmapStep -> Walk) (d : nat) (p : option nat)
    (l : list RoadmapStep) :
  Forall (fun ch => ∀ st, ∃ new,
            f st ch = Build_Walk (w_nodes st ++ new) (w_edges st ++ omap edge_of new)
                        (w_counter st + length new) ∧
            numbered (w_counter st) d p [ch] new) l →
  ∀ st, ∃ new,
    foldl f st l = Build_Walk (w_nodes st ++ new) (w_edges st ++ omap edge_of new)
                     (w_counter st + length new) ∧
    numbered (w_counter st) d p l new.
Proof.
  induction 1 as [|ch l Hch _ IH]; intros st.
  - exists []. cbn [foldl omap length]. rewrite !app_nil_r, Nat.add_0_r.
    split; [by destruct st|apply numbered_nil].
  - destruct (Hch st) as (new1 & E1 & N1). cbn [foldl]. rewrite E1.
    destruct (IH (Build_Walk (w_nodes st ++ new1) (w_edges st ++ omap edge_of new1)
                    (w_counter st + length new1))) as (new2 & E2 & N2).
    cbn [w_nodes w_edges w_counter] in E2, N2.
    exists (new1 ++ new2). split.
    + rewrite E2, omap_app, length_app, !app_assoc, Nat.add_assoc. reflexivity.
    + by apply (numbered_app _ _ _ [ch] l).
Qed.

Lemma walk_step_numbered (s : RoadmapStep) :
  ∀ d p st, ∃ newk,
    walk_step Instance d p s st =
      Build_Walk
        (w_nodes st ++ Build_Node (w_counter st) (title s) (duration_months s) d p
                         (length (milestones s)) (length (tasks s)) :: newk)
        (w_edges st ++ omap edge_of newk)
        (w_counter st + 1 + length newk) ∧
    numbered (w_counter st + 1) (d + 1) (Some (w_counter st)) (children s) newk.
Proof.
  induction s as [s IH] using RoadmapStep_children_ind. intros d p st.
  rewrite walk_step_Instance.
  set (c := w_counter st).
  set (n0 := Build_Node c (title s) (duration_months s) d p _ _).
  destruct (foldl_numbered
              (fun st' ch =>
                 walk_step Instance (d + 1) (Some c) ch
                   (Build_Walk (w_nodes st') (w_edges st' ++ [(c, w_counter st')])
                      (w_counter st')))
              (d + 1) (Some c) (children s))
    with (st := Build_Walk (w_nodes st ++ [n0]) (w_edges st) (c + 1))
    as (newk & E & N).
  - eapply Forall_impl; [exact IH|]. intros ch Hch st'.
    destruct (Hch (d + 1) (Some c)
                (Build_Walk (w_nodes st') (w_edges st' ++ [(c, w_counter st')])
                   (w_counter st'))) as (newc & Ec & Nc).
    cbn [w_nodes w_edges w_counter] in Ec, Nc.
    eexists (_ :: newc). split; [|apply numbered_step; exact Nc].
    rewrite Ec. cbn [omap edge_of node_parent node_id mbind option_bind length].
    f_equal; [by rewrite <- app_assoc|lia].
  - cbn [w_nodes w_edges w_counter] in E, N.
    exists newk. split; [|exact N].
    rewrite E. by rewrite <- app_assoc.
Qed.

Lemma enumerate_nodes_numbered (steps : list RoadmapStep) :
  numbered 0 0 None steps (enumerate_nodes Instance steps).1 ∧
  (enumerate_nodes Instance steps).2 = omap edge_of (enumerate_nodes Instance steps).1.
Proof.
  unfold enumerate_nodes, walk.
  destruct (foldl_numbered (fun st s => walk_step Instance 0 None s st) 0 None steps)
    with (st := Build_Walk [] [] 0) as (new & E & N).
  - apply Forall_forall. intros s _ st.
    destruct (walk_step_numbered s 0 None st) as (newk & Ek & Nk).
    eexists (_ :: newk). split; [|apply numbered_step; exact Nk].
    rewrite Ek. cbn [omap edge_of node_parent mbind option_bind length].
    f_equal. lia.
  - rewrite E. cbn [fst snd w_nodes w_edges w_counter app]. split; [exact N|done].
Qed.

Lemma walk_Dict (steps : list RoadmapStep) (d : nat) (p : option nat) (st : Walk) :
  walk Dict steps d p st =
    Build_Walk
      (w_nodes st ++ imap (fun i _ => Build_Node (w_counter st + i) "" 1 d p 0 0) steps)
      (w_edges st) (w_counter st + length steps).
Proof.
  unfold walk. revert st. induction steps as [|s steps IH]; intros st.
  - cbn. rewrite app_nil_r, Nat.add_0_r. by destruct st.
  - cbn [foldl]. rewrite walk_step_Dict, IH. cbn [w_nodes w_edges w_counter length].
    rewrite imap_cons, <- app_assoc, Nat.add_0_r. cbn [app].
    f_equal; [|lia]. do 2 f_equal. apply imap_ext. intros i x _. cbn. f_equal. lia.
Qed.

Lemma layout_from (nodes : list Node) (m : gmap nat (nat * Z)) (x k : nat) :
  map node_id nodes = seq x (length nodes) →
  (foldl (fun acc n =>
            (<[node_id n := (acc.2, (- Z.of_nat (node_depth n))%Z)]> acc.1, acc.2 + 1))
         (m, x) nodes).1 !! k
  = if decide (x ≤ k)
    then match nodes !! (k - x) with
         | Some n => Some (k, (- Z.of_nat (node_depth n))%Z)
         | None => m !! k
         end
    else m !! k.
Proof.
  revert m x. induction nodes as [|n nodes IH]; intros m x Hid.
  - cbn. by destruct (decide (x ≤ k)).
  - cbn [map length seq] in Hid. injection Hid as Hn Hid.
    cbn [foldl fst snd]. rewrite Hn, Nat.add_1_r, (IH _ (S x) Hid).
    destruct (decide (S x ≤ k)) as [Hk|Hk].
    + rewrite decide_True by lia.
      replace (k - x) with (S (k - S x)) by lia. cbn [lookup list_lookup].
      destruct (nodes !! (k - S x)); [done|]. apply lookup_insert_ne. lia.
    + destruct (decide (x ≤ k)) as [Hk'|Hk'].
      * assert (k = x) as -> by lia. rewrite Nat.sub_diag. cbn.
        by rewrite lookup_insert_eq.
      * apply lookup_insert_ne. lia.
Qed.

Lemma lookup_numbered_id (nodes : list Node) (i : nat) (n : Node) :
  map node_id nodes = seq 0 (length nodes) → nodes !! i = Some n → node_id n = i.
Proof.
  intros Hid Hi.
  assert (H : map node_id nodes !! i = Some (node_id n)) by (by rewrite list_lookup_fmap, Hi).
  rewrite Hid in H. apply lookup_seq in H. lia.
Qed.

Lemma enumerate_nodes_ids (kind : PyKind) (steps : list RoadmapStep) :
  map node_id (enumerate_nodes kind steps).1
  = seq 0 (length (enumerate_nodes kind steps).1).
Proof.
  destruct kind.
  - destruct (enumerate_nodes_numbered steps) as [N _].
    rewrite (numbered_length _ _ _ _ _ N). by destruct N as (Hid & _).
  - unfold enumerate_nodes. rewrite walk_Dict. cbn [fst w_nodes w_counter app].
    apply list_eq. intros i.
    rewrite list_lookup_fmap, length_imap, list_lookup_imap.
    destruct (steps !! i) as [s|] eqn:Es; cbn.
    + symmetry. apply lookup_seq. split; [done|]. by eapply lookup_lt_Some.
    + symmetry. apply lookup_seq_ge. by apply lookup_ge_None.
Qed.

(** X24: handed RoadmapStep instances, enumerate_nodes lists the steps of
    the forest in preorder: node i has id i and shows the title, duration,
    milestone count and task count of the i-th step of the preorder; and
    the edges are exactly one per node that has a parent, from that parent,
    in node order. *)
Theorem enumerate_nodes_preorder (steps : list RoadmapStep) :
  let nodes := (enumerate_nodes Instance steps).1 in
  let edges := (enumerate_nodes Instance steps).2 in
  length nodes = length (flat_map subtree steps) ∧
  map node_id nodes = seq 0 (length nodes) ∧
  map node_facts nodes = map step_facts (flat_map subtree steps) ∧
  edges = omap edge_of nodes.
Proof.
  intros nodes edges. subst nodes edges.
  destruct (enumerate_nodes_numbered steps) as [N E].
  split; [exact (numbered_length _ _ _ _ _ N)|].
  split; [apply enumerate_nodes_ids|].
  split; [by destruct N as (_ & Hf & _)|exact E].
Qed.

(** X25: in that enumeration a node is either a root (no parent, depth 0,
    one of the steps handed in) or the node of a child of an earlier node:
    its parent id is the index of a node one level up whose step has the
    node's step among its children. *)
Theorem enumerate_nodes_parents (steps : list RoadmapStep) (i : nat) (n : Node)
    (s : RoadmapStep) :
  let nodes := (enumerate_nodes Instance steps).1 in
  nodes !! i = Some n →
  flat_map subtree steps !! i = Some s →
  (node_parent n = None ∧ node_depth n = 0 ∧ s ∈ steps) ∨
  (∃ q pn sp,
     node_parent n = Some q ∧ q < i ∧
     nodes !! q = Some pn ∧ flat_map subtree steps !! q = Some sp ∧
     node_depth n = node_depth pn + 1 ∧ s ∈ children sp).
Proof.
  intros nodes Hn Hs. subst nodes.
  pose proof (enumerate_nodes_ids Instance steps) as Hids.
  destruct (enumerate_nodes_numbered steps) as [(_ & _ & Hp) _].
  destruct (Hp n s) as [(Hd & Hpar & Hin)|(pn & sp & Hpn & Hpar & Hlt & Hd & Hin)].
  { apply elem_of_lookup_zip_with. eauto 6. }
  - left. auto.
  - right. apply elem_of_lookup_zip_with in Hpn as (q & pn' & sp' & [= <- <-] & Hq & Hq').
    rewrite (lookup_numbered_id _ _ _ Hids Hq) in Hpar, Hlt.
    rewrite (lookup_numbered_id _ _ _ Hids Hn) in Hlt.
    exists q, pn, sp. auto 7.
Qed.

Lemma enumerate_nodes_parents_witness :
  (node_parent (Build_Node 1 "Leaf" 2 1 (Some 0) 1 2) = None
   ∧ node_depth (Build_Node 1 "Leaf" 2 1 (Some 0) 1 2) = 0
   ∧ leaf_step ∈ [parent_step]) ∨
  (∃ q pn sp,
     node_parent (Build_Node 1 "Leaf" 2 1 (Some 0) 1 2) = Some q ∧ q < 1 ∧
     (enumerate_nodes Instance [parent_step]).1 !! q = Some pn ∧
     flat_map subtree [parent_step] !! q = Some sp ∧
     node_depth (Build_Node 1 "Leaf" 2 1 (Some 0) 1 2) = node_depth pn + 1 ∧
     leaf_step ∈ children sp).
Proof.
  apply (enumerate_nodes_parents [parent_step] 1 (Build_Node 1 "Leaf" 2 1 (Some 0) 1 2)
           leaf_step); reflexivity.
Defined.

(** X26: layout_topdown puts the node with id i of an enumeration at x = i
    and y = minus its depth, and gives no position to any other id. *)
Theorem layout_topdown_positions (kind : PyKind) (steps : list RoadmapStep) (i : nat) :
  let nodes := (enumerate_nodes kind steps).1 in
  layout_topdown nodes !! i
  = (fun n => (i, (- Z.of_nat (node_depth n))%Z)) <$> nodes !! i.
Proof.
  intros nodes. subst nodes. unfold layout_topdown.
  rewrite layout_from by apply enumerate_nodes_ids.
  rewrite decide_True by lia. rewrite Nat.sub_0_r.
  by destruct (_ !! i).
Qed.

(** X27: handed the dicts that _serialize_nested_steps makes of the steps,
    enumerate_nodes finds none of the attributes it asks for: it returns one
    node per top-level step, with an empty title, duration 1, depth 0 and
    no milestones or tasks, and no edge at all; sub-steps are not visited.
    The layout is then a single row. *)
Theorem enumerate_nodes_of_dicts (steps : list RoadmapStep) :
  enumerate_nodes Dict steps
  = (imap (fun i _ => Build_Node i "" 1 0 None 0 0) steps, []) ∧
  (∀ i, layout_topdown (enumerate_nodes Dict steps).1 !! i
        = if decide (i < length steps) then Some (i, 0%Z) else None).
Proof.
  assert (E : enumerate_nodes Dict steps
              = (imap (fun i _ => Build_Node i "" 1 0 None 0 0) steps, [])).
  { unfold enumerate_nodes. rewrite walk_Dict. reflexivity. }
  split; [exact E|]. intros i.
  unfold layout_topdown. rewrite layout_from by apply enumerate_nodes_ids.
  rewrite decide_True by lia. rewrite Nat.sub_0_r, E. cbn [fst].
  rewrite list_lookup_imap.
  destruct (decide (i < length steps)) as [Hi|Hi].
  - apply lookup_lt_is_Some in Hi as [s ->]. reflexivity.
  - rewrite (proj2 (lookup_ge_None steps i)) by lia. cbn. apply lookup_empty.
Qed.

Example enumerate_parent_and_leaf :
  enumerate_nodes Instance [parent_step]
  = ([Build_Node 0 "Parent" 3 0 None 0 1; Build_Node 1 "Leaf" 2 1 (Some 0) 1 2],
     [(0, 1)]) ∧
  enumerate_nodes Dict [parent_step] = ([Build_Node 0 "" 1 0 None 0 0], []).
Proof. split; reflexivity. Qed.
